(** * Session and request gateway of the playlist converter front end

    A shallow embedding of the token-based [App] component (token storage in
    [localStorage], the axios request interceptor, [AuthCallback], and the
    [MainApp] handlers [fetchAPI], [checkAuthStatus], [handleLogout] and
    [handleConvert]), followed by the properties of the specification that
    concern them.  The view of [MainApp] is embedded as far as what it shows
    and disables, and the earlier draft of the same file that relies on a
    session cookie is embedded in [CookieDraft].  [handleLogin] (a
    navigation away from the page) and the effect of [MainApp] that shows
    the error carried by the router are not embedded, nor is the oldest
    draft, written on [fetch], whose error texts come from the JavaScript
    engine.

    Conventions of the embedding.
    - A JavaScript [string | null] (the result of [localStorage.getItem] or of
      [URLSearchParams.get]) is an [option string]; strings are byte strings.
    - A JavaScript number is an integer or [NaN] (type [number]).  Every number
      the program computes is a sum or product of integers, so the model is
      exact as long as the values stay inside the safe integer range.
    - JSON payloads and the React state cells that hold them are [JSValue]s.
    - The handlers run in a state monad over [World]: the browser's
      [localStorage], the clock behind [Date.now()], the console, the requests
      handed to the network, the router's navigations, and the React state
      cells.  A state setter takes effect at once; no handler modelled here
      reads a cell after it has set it.
    - [localStorage] operations are assumed to succeed (no quota error). *)

From Stdlib Require Import ZArith String Ascii List Bool Lia.
From Stdlib Require Import Decimal DecimalString DecimalZ.
From stdpp Require Import gmap strings.

Local Open Scope Z_scope.

(** ** JavaScript values *)

Inductive number : Type :=
| Int (z : Z)
| NaN.

#[warnings="-register-all"]
Inductive JSValue : Type :=
| JUndefined
| JNull
| JBool (b : bool)
| JNumber (n : number)
| JString (s : string)
| JArray (items : list JSValue)
| JObject (fields : list (string * JSValue)).

(** [ToBoolean] on numbers: [0] and [NaN] are falsy. *)
Definition truthy_number (n : number) : bool :=
  match n with
  | Int z => negb (z =? 0)
  | NaN => false
  end.

(** [ToBoolean] on a [string | null]: [null] and the empty string are falsy. *)
Definition truthy_string (s : option string) : bool :=
  match s with
  | Some (String _ _) => true
  | _ => false
  end.

(** [ToBoolean] on a [number | null]. *)
Definition truthy_timestamp (t : option number) : bool :=
  match t with
  | Some n => truthy_number n
  | None => false
  end.

(** [ToBoolean] on an arbitrary value. *)
Definition truthy (v : JSValue) : bool :=
  match v with
  | JUndefined | JNull => false
  | JBool b => b
  | JNumber n => truthy_number n
  | JString s => truthy_string (Some s)
  | JArray _ | JObject _ => true
  end.

(** [a || b] *)
Definition js_or (a b : JSValue) : JSValue := if truthy a then a else b.

Fixpoint assoc_get (fields : list (string * JSValue)) (k : string) : JSValue :=
  match fields with
  | [] => JUndefined
  | (k', v) :: rest => if String.eqb k' k then v else assoc_get rest k
  end.

(** [obj\[k\] = v] on an object literal: an existing key keeps its place. *)
Fixpoint assoc_set (fields : list (string * JSValue)) (k : string) (v : JSValue)
  : list (string * JSValue) :=
  match fields with
  | [] => [(k, v)]
  | (k', v') :: rest =>
      if String.eqb k' k then (k, v) :: rest else (k', v') :: assoc_set rest k v
  end.

(** [v.k] for a truthy [v] and one of the keys the program reads ([user],
    [success], [error], [data], [message]): the field of an object, and
    [undefined] on a primitive or an array, none of which has such a
    property. *)
Definition get_prop (v : JSValue) (k : string) : JSValue :=
  match v with
  | JObject fields => assoc_get fields k
  | _ => JUndefined
  end.

(** ** Numbers: arithmetic, [parseInt(s, 10)] and [toString()]

    The operations below compute on integers of any size.  They are those of
    the program on safe integers ([safe_integer] below); beyond them the
    program rounds, and from 1e21 it prints in exponent form.  The properties
    that depend on the value of a computed number carry that bound. *)

Definition num_add (a b : number) : number :=
  match a, b with
  | Int x, Int y => Int (x + y)
  | _, _ => NaN
  end.

Definition num_sub (a b : number) : number :=
  match a, b with
  | Int x, Int y => Int (x - y)
  | _, _ => NaN
  end.

Definition num_mul (a b : number) : number :=
  match a, b with
  | Int x, Int y => Int (x * y)
  | _, _ => NaN
  end.

(** [a >= b]: false as soon as an operand is [NaN]. *)
Definition num_ge (a b : number) : bool :=
  match a, b with
  | Int x, Int y => y <=? x
  | _, _ => false
  end.

(** White space skipped by [parseInt]: the ASCII part of it.  The program
    also skips the white space beyond ASCII (no-break space, line and
    paragraph separators, ...), which the model reads as [NaN]. *)
Definition is_white_space (c : ascii) : bool :=
  match nat_of_ascii c with
  | 9%nat | 10%nat | 11%nat | 12%nat | 13%nat | 32%nat => true
  | _ => false
  end.

Fixpoint skip_white_space (s : string) : string :=
  match s with
  | String c rest => if is_white_space c then skip_white_space rest else s
  | EmptyString => s
  end.

(** The longest prefix of decimal digits, as a decimal numeral. *)
Fixpoint digit_prefix (s : string) : uint :=
  match s with
  | String "0" rest => D0 (digit_prefix rest)
  | String "1" rest => D1 (digit_prefix rest)
  | String "2" rest => D2 (digit_prefix rest)
  | String "3" rest => D3 (digit_prefix rest)
  | String "4" rest => D4 (digit_prefix rest)
  | String "5" rest => D5 (digit_prefix rest)
  | String "6" rest => D6 (digit_prefix rest)
  | String "7" rest => D7 (digit_prefix rest)
  | String "8" rest => D8 (digit_prefix rest)
  | String "9" rest => D9 (digit_prefix rest)
  | _ => Nil
  end.

Definition parse_digits (s : string) : number :=
  match digit_prefix s with
  | Nil => NaN
  | d => Int (Z.of_uint d)
  end.

(** [parseInt(s, 10)]: leading white space, an optional sign, then as many
    digits as there are; [NaN] when there is none.  The value is that of the
    program when it is a safe integer. *)
Definition parseInt (s : string) : number :=
  match skip_white_space s with
  | String "-" rest => num_mul (Int (-1)) (parse_digits rest)
  | String "+" rest => parse_digits rest
  | rest => parse_digits rest
  end.

(** [n.toString()]: the decimal digits, which is what the program prints
    for a safe integer. *)
Definition toString (n : number) : string :=
  match n with
  | Int z => NilZero.string_of_int (Z.to_int z)
  | NaN => "NaN"
  end.

(** [s.replace(/_/g, ' ')] *)
Fixpoint replace_underscores (s : string) : string :=
  match s with
  | String "_" rest => String " " (replace_underscores rest)
  | String c rest => String c (replace_underscores rest)
  | EmptyString => EmptyString
  end.

(** ** The browser and the React state *)

Inductive Level : Type := LevelLog | LevelWarn | LevelError.

(** The request configuration [fetchAPI] builds and the interceptor completes.
    The defaults of the axios instance ([baseURL], the [Content-Type] header)
    are the same for every request and are left out. *)
Record Request : Type := {
  method : string;
  url : string;
  data : JSValue;
  headers : list (string * JSValue)
}.

(** What the network does with a request: an HTTP response, no response at
    all, or a failure before anything was sent. *)
Inductive Transport : Type :=
| Reply (status : Z) (body : JSValue)
| NoReply
| SetupFailure (message : string).

(** The error axios rejects with: [err.response], whether [err.request] is
    set, and [err.message]. *)
Record AxiosError : Type := {
  response : option (Z * JSValue);
  request : bool;
  message : string
}.

Inductive AxiosResult : Type :=
| Resolved (status : Z) (body : JSValue)
| Rejected (err : AxiosError).

(** The options object the two call sites pass to [fetchAPI]. *)
Record Options : Type := {
  opt_method : option string;
  opt_body : JSValue;
  opt_headers : option (list (string * JSValue))
}.

Record World : Type := {
  (* browser *)
  localStorage : gmap string string;
  clock : nat -> Z;            (* the successive readings of Date.now() *)
  clock_reads : nat;           (* how many readings were taken so far *)
  console : list (Level * string);
  network : list Request;      (* requests dispatched, oldest first *)
  navigations : list (string * JSValue);
  (* AuthCallback *)
  authError : JSValue;
  (* MainApp *)
  isLoggedIn : bool;
  userData : JSValue;
  playlistUrl : JSValue;
  playlistName : JSValue;
  isAuthLoading : bool;
  isConverting : bool;
  error : JSValue;
  results : JSValue
}.

Definition with_localStorage (f : gmap string string -> gmap string string) (w : World) : World :=
  Build_World (f (localStorage w)) (clock w) (clock_reads w) (console w) (network w)
    (navigations w) (authError w) (isLoggedIn w) (userData w) (playlistUrl w)
    (playlistName w) (isAuthLoading w) (isConverting w) (error w) (results w).

Definition with_clock_reads (n : nat) (w : World) : World :=
  Build_World (localStorage w) (clock w) n (console w) (network w)
    (navigations w) (authError w) (isLoggedIn w) (userData w) (playlistUrl w)
    (playlistName w) (isAuthLoading w) (isConverting w) (error w) (results w).

Definition with_console (c : list (Level * string)) (w : World) : World :=
  Build_World (localStorage w) (clock w) (clock_reads w) c (network w)
    (navigations w) (authError w) (isLoggedIn w) (userData w) (playlistUrl w)
    (playlistName w) (isAuthLoading w) (isConverting w) (error w) (results w).

Definition with_network (n : list Request) (w : World) : World :=
  Build_World (localStorage w) (clock w) (clock_reads w) (console w) n
    (navigations w) (authError w) (isLoggedIn w) (userData w) (playlistUrl w)
    (playlistName w) (isAuthLoading w) (isConverting w) (error w) (results w).

Definition with_navigations (n : list (string * JSValue)) (w : World) : World :=
  Build_World (localStorage w) (clock w) (clock_reads w) (console w) (network w)
    n (authError w) (isLoggedIn w) (userData w) (playlistUrl w)
    (playlistName w) (isAuthLoading w) (isConverting w) (error w) (results w).

Definition with_authError (v : JSValue) (w : World) : World :=
  Build_World (localStorage w) (clock w) (clock_reads w) (console w) (network w)
    (navigations w) v (isLoggedIn w) (userData w) (playlistUrl w)
    (playlistName w) (isAuthLoading w) (isConverting w) (error w) (results w).

Definition with_isLoggedIn (b : bool) (w : World) : World :=
  Build_World (localStorage w) (clock w) (clock_reads w) (console w) (network w)
    (navigations w) (authError w) b (userData w) (playlistUrl w)
    (playlistName w) (isAuthLoading w) (isConverting w) (error w) (results w).

Definition with_userData (v : JSValue) (w : World) : World :=
  Build_World (localStorage w) (clock w) (clock_reads w) (console w) (network w)
    (navigations w) (authError w) (isLoggedIn w) v (playlistUrl w)
    (playlistName w) (isAuthLoading w) (isConverting w) (error w) (results w).

Definition with_playlistUrl (v : JSValue) (w : World) : World :=
  Build_World (localStorage w) (clock w) (clock_reads w) (console w) (network w)
    (navigations w) (authError w) (isLoggedIn w) (userData w) v
    (playlistName w) (isAuthLoading w) (isConverting w) (error w) (results w).

Definition with_playlistName (v : JSValue) (w : World) : World :=
  Build_World (localStorage w) (clock w) (clock_reads w) (console w) (network w)
    (navigations w) (authError w) (isLoggedIn w) (userData w) (playlistUrl w)
    v (isAuthLoading w) (isConverting w) (error w) (results w).

Definition with_isAuthLoading (b : bool) (w : World) : World :=
  Build_World (localStorage w) (clock w) (clock_reads w) (console w) (network w)
    (navigations w) (authError w) (isLoggedIn w) (userData w) (playlistUrl w)
    (playlistName w) b (isConverting w) (error w) (results w).

Definition with_isConverting (b : bool) (w : World) : World :=
  Build_World (localStorage w) (clock w) (clock_reads w) (console w) (network w)
    (navigations w) (authError w) (isLoggedIn w) (userData w) (playlistUrl w)
    (playlistName w) (isAuthLoading w) b (error w) (results w).

Definition with_error (v : JSValue) (w : World) : World :=
  Build_World (localStorage w) (clock w) (clock_reads w) (console w) (network w)
    (navigations w) (authError w) (isLoggedIn w) (userData w) (playlistUrl w)
    (playlistName w) (isAuthLoading w) (isConverting w) v (results w).

Definition with_results (v : JSValue) (w : World) : World :=
  Build_World (localStorage w) (clock w) (clock_reads w) (console w) (network w)
    (navigations w) (authError w) (isLoggedIn w) (userData w) (playlistUrl w)
    (playlistName w) (isAuthLoading w) (isConverting w) (error w) v.

(** ** The state monad of the handlers *)

Definition M (A : Type) : Type := World -> A * World.

Definition ret {A : Type} (a : A) : M A := fun w => (a, w).

Definition bind {A B : Type} (m : M A) (k : A -> M B) : M B :=
  fun w => let (a, w') := m w in k a w'.

Declare Scope js_scope.
Delimit Scope js_scope with js.

Notation "'let*' x ':=' m 'in' k" := (bind m (fun x => k))
  (at level 10, x name, m at level 100, k at level 200) : js_scope.
Notation "m >>> k" := (bind m (fun _ => k))
  (at level 90, right associativity) : js_scope.

Local Open Scope js_scope.

(** The value a handler returns and the world it leaves. *)
Definition result_of {A : Type} (m : M A) (w : World) : A := fst (m w).
Definition world_after {A : Type} (m : M A) (w : World) : World := snd (m w).

Definition modify (f : World -> World) : M unit := fun w => (tt, f w).
Definition gets {A : Type} (f : World -> A) : M A := fun w => (f w, w).

(** [Date.now()]: the next reading of the clock. *)
Definition Date_now : M number :=
  fun w => (Int (clock w (clock_reads w)), with_clock_reads (S (clock_reads w)) w).

Definition localStorage_getItem (k : string) : M (option string) :=
  fun w => (localStorage w !! k, w).

Definition localStorage_setItem (k v : string) : M unit :=
  modify (with_localStorage (insert k v)).

Definition localStorage_removeItem (k : string) : M unit :=
  modify (with_localStorage (delete k)).

(** A console call is recorded by its level and its leading literal; the
    values printed after it are left out. *)
Definition console_log (msg : string) : M unit :=
  modify (fun w => with_console (console w ++ [(LevelLog, msg)]) w).
Definition console_warn (msg : string) : M unit :=
  modify (fun w => with_console (console w ++ [(LevelWarn, msg)]) w).
Definition console_error (msg : string) : M unit :=
  modify (fun w => with_console (console w ++ [(LevelError, msg)]) w).

(** [navigate(path, { state })] *)
Definition navigate (path : string) (state : JSValue) : M unit :=
  modify (fun w => with_navigations (navigations w ++ [(path, state)]) w).

Definition setAuthError (v : JSValue) : M unit := modify (with_authError v).
Definition setIsLoggedIn (b : bool) : M unit := modify (with_isLoggedIn b).
Definition setUserData (v : JSValue) : M unit := modify (with_userData v).
Definition setPlaylistUrl (v : JSValue) : M unit := modify (with_playlistUrl v).
Definition setPlaylistName (v : JSValue) : M unit := modify (with_playlistName v).
Definition setIsAuthLoading (b : bool) : M unit := modify (with_isAuthLoading b).
Definition setIsConverting (b : bool) : M unit := modify (with_isConverting b).
Definition setError (v : JSValue) : M unit := modify (with_error v).
Definition setResults (v : JSValue) : M unit := modify (with_results v).

(** ** Token storage *)

Definition ACCESS_TOKEN_KEY : string := "spotify_access_token".
Definition REFRESH_TOKEN_KEY : string := "spotify_refresh_token".
Definition EXPIRY_TIMESTAMP_KEY : string := "spotify_expiry_timestamp".

(** [ToString] of a [string | null]. *)
Definition String_of (s : option string) : string :=
  match s with
  | Some s => s
  | None => "null"
  end.

(** [ToNumber] of a [number | null]. *)
Definition Number_of (t : option number) : number :=
  match t with
  | Some n => n
  | None => Int 0
  end.

(** [storeTokens]; the arguments are the [string | null] values
    [AuthCallback] reads from the fragment.  Like every function without a
    [return] value it returns [undefined]. *)
Definition storeTokens (accessToken refreshToken expiresIn : option string) : M JSValue :=
  if negb (truthy_string accessToken) || negb (truthy_string expiresIn) then
    console_error "Cannot store tokens: Access token or expires_in missing." >>>
    ret JUndefined
  else
    let* now := Date_now in
    let expiryTimestamp :=
      num_add now (num_mul (parseInt (String_of expiresIn)) (Int 1000)) in
    localStorage_setItem ACCESS_TOKEN_KEY (String_of accessToken) >>>
    (if truthy_string refreshToken
     then localStorage_setItem REFRESH_TOKEN_KEY (String_of refreshToken)
     else localStorage_removeItem REFRESH_TOKEN_KEY) >>>
    localStorage_setItem EXPIRY_TIMESTAMP_KEY (toString expiryTimestamp) >>>
    console_log "Tokens stored. Expiry:" >>>
    ret JUndefined.

Definition getAccessToken : M (option string) := localStorage_getItem ACCESS_TOKEN_KEY.
Definition getRefreshToken : M (option string) := localStorage_getItem REFRESH_TOKEN_KEY.

Definition getExpiryTimestamp : M (option number) :=
  let* timestamp := localStorage_getItem EXPIRY_TIMESTAMP_KEY in
  ret (if truthy_string timestamp then Some (parseInt (String_of timestamp)) else None).

Definition clearTokens : M unit :=
  localStorage_removeItem ACCESS_TOKEN_KEY >>>
  localStorage_removeItem REFRESH_TOKEN_KEY >>>
  localStorage_removeItem EXPIRY_TIMESTAMP_KEY >>>
  console_log "Tokens cleared.".

(** [isTokenExpired]: [Date.now()] is read only when an expiry is stored. *)
Definition isTokenExpired : M bool :=
  let* expiry := getExpiryTimestamp in
  if negb (truthy_timestamp expiry) then ret true
  else
    let* now := Date_now in
    ret (num_ge now (num_sub (Number_of expiry) (num_mul (Int 60) (Int 1000)))).

(** ** The axios client *)

(** [a && f()]: [f] is called only when [a] is truthy. *)
Definition and_then (a : bool) (f : M bool) : M bool :=
  if a then f else ret false.

(** [config.headers\[name\] = value] *)
Definition set_header (config : Request) (name : string) (value : JSValue) : Request :=
  {| method := method config;
     url := url config;
     data := data config;
     headers := assoc_set (headers config) name value |}.

(** The request interceptor. *)
Definition request_interceptor (config : Request) : M Request :=
  let* token := getAccessToken in
  let* fresh :=
    and_then (truthy_string token) (let* expired := isTokenExpired in ret (negb expired)) in
  if fresh then
    let config' :=
      set_header config "Authorization" (JString ("Bearer " +:+ String_of token)) in
    console_log "Authorization header added." >>>
    ret config'
  else
    let* stale := and_then (truthy_string token) isTokenExpired in
    if stale then
      console_warn "Token exists but is expired. Clearing tokens. Auth header not added." >>>
      clearTokens >>>
      ret config
    else
      console_log "No valid token found. Auth header not added." >>>
      ret config.

(** axios settles a response by its default [validateStatus] (2xx resolves),
    and rejects when there is no response. *)
Definition settle (t : Transport) : AxiosResult :=
  match t with
  | Reply status body =>
      if (200 <=? status) && (status <? 300) then Resolved status body
      else Rejected {| response := Some (status, body); request := true;
                       message := "Request failed with status code " +:+ toString (Int status) |}
  | NoReply =>
      Rejected {| response := None; request := true; message := "Network Error" |}
  | SetupFailure msg =>
      Rejected {| response := None; request := false; message := msg |}
  end.

(** [status === n] for the [number | undefined] that [err.response?.status] is. *)
Definition status_is (status : option Z) (n : Z) : bool :=
  match status with
  | Some s => s =? n
  | None => false
  end.

(** The [config] object [fetchAPI] builds from its arguments. *)
Definition fetchAPI_config (endpoint : string) (options : Options) : Request :=
  {| method := if truthy_string (opt_method options)
               then String_of (opt_method options) else "GET";
     url := endpoint;
     data := opt_body options;
     headers := match opt_headers options with Some h => h | None => [] end |}.

Section MainApp.

(** The backend and the network in front of it: what comes back for a
    request. *)
Variable server : Request -> Transport.

(** [apiClient(config)]: the interceptor runs, the request goes out once,
    the outcome is settled. *)
Definition apiClient (config : Request) : M AxiosResult :=
  let* config' := request_interceptor config in
  modify (fun w => with_network (network w ++ [config']) w) >>>
  ret (settle (server config')).

Definition status_text (status : option Z) : string :=
  match status with
  | Some s => toString (Int s)
  | None => "undefined"
  end.

(** [fetchAPI] catches every rejection of [apiClient], so it never throws;
    the [catch] blocks of its callers are not reachable and are not
    modelled. *)
Definition fetchAPI (endpoint : string) (options : Options) : M JSValue :=
  let config := fetchAPI_config endpoint options in
  let* r := apiClient config in
  match r with
  | Resolved _ body => ret body
  | Rejected err =>
      console_error "Axios API Error:" >>>
      let errorData :=
        match response err with Some (_, d) => d | None => JUndefined end in
      let status := option_map fst (response err) in
      let* errorMessage :=
        if status_is status 401 then
          console_warn "Received 401 Unauthorized. Clearing tokens and logging out." >>>
          clearTokens >>>
          setIsLoggedIn false >>>
          setUserData JNull >>>
          ret (JString "Your session has expired or is invalid. Please log in again.")
        else if truthy errorData then
          ret (js_or (js_or (get_prop errorData "message") (get_prop errorData "error"))
                 (JString ("Request failed with status " +:+ status_text status)))
        else if request err then
          ret (JString "No response received from server. Check network or server status.")
        else
          ret (JString (message err)) in
      setError errorMessage >>>
      setIsAuthLoading false >>>
      setIsConverting false >>>
      ret JNull
  end.

Definition no_options : Options :=
  {| opt_method := None; opt_body := JUndefined; opt_headers := None |}.

(** [checkAuthStatus]: the short circuit on a missing or expired token, then
    the status request. *)
Definition checkAuthStatus : M JSValue :=
  setIsAuthLoading true >>>
  setError JNull >>>
  let* token := getAccessToken in
  let* dead :=
    (if negb (truthy_string token) then ret true else isTokenExpired) in
  if dead then
    console_log "No token found or token expired. Clearing any remnants." >>>
    (let* expired := isTokenExpired in
     if expired then getExpiryTimestamp >>> console_log "Token expired at:"
     else ret tt) >>>
    clearTokens >>>
    setIsLoggedIn false >>>
    setUserData JNull >>>
    setIsAuthLoading false >>>
    ret JUndefined
  else
    console_log "Token found, checking status with /api/auth/status..." >>>
    let* data := fetchAPI "/auth/status" no_options in
    (if truthy data && truthy (get_prop data "user") then
       console_log "User logged in:" >>>
       setIsLoggedIn true >>>
       setUserData (get_prop data "user")
     else
       console_warn "/auth/status check returned OK but no user data. Assuming logged out." >>>
       clearTokens >>>
       setIsLoggedIn false >>>
       setUserData JNull) >>>
    setIsAuthLoading false >>>
    ret JUndefined.

(** [handleConvert]; [event.preventDefault()] has no effect on the state
    modelled here.  [playlistUrl] and [playlistName] are the values of the
    state cells when the form is submitted. *)
Definition handleConvert : M JSValue :=
  setIsConverting true >>>
  setError JNull >>>
  setResults JNull >>>
  let* playlistUrl := gets playlistUrl in
  let* playlistName := gets playlistName in
  let postData :=
    JObject [("playlist_url", playlistUrl);
             ("playlist_name", js_or playlistName (JString "Converted YouTube Playlist"))] in
  let* data :=
    fetchAPI "/convert"
      {| opt_method := Some "POST"; opt_body := postData; opt_headers := None |} in
  (if truthy data && truthy (get_prop data "success") then
     setResults (get_prop data "data") >>>
     setPlaylistUrl (JString "") >>>
     setPlaylistName (JString "")
   else if truthy data && truthy (get_prop data "error") then
     setError (get_prop data "error") >>>
     (if truthy (get_prop data "data") then setResults (get_prop data "data")
      else ret tt)
   else ret tt) >>>
  setIsConverting false >>>
  ret JUndefined.

End MainApp.

(** [handleLogout] *)
Definition handleLogout : M JSValue :=
  console_log "Handling logout: Clearing tokens and updating state." >>>
  clearTokens >>>
  setIsLoggedIn false >>>
  setUserData JNull >>>
  setError JNull >>>
  setResults JNull >>>
  ret JUndefined.

(** ** The OAuth callback route *)

(** [params.get(name)]: the value of the first pair named [name], or [null]. *)
Fixpoint params_get (params : list (string * string)) (name : string) : option string :=
  match params with
  | [] => None
  | (k, v) :: rest => if String.eqb k name then Some v else params_get rest name
  end.

(** [s.substring(1)] *)
Definition substring_1 (s : string) : string :=
  match s with
  | String _ rest => rest
  | EmptyString => EmptyString
  end.

Section AuthCallback.

(** The platform's [new URLSearchParams(text)], as the list of its pairs. *)
Variable URLSearchParams : string -> list (string * string).

(** The effect [AuthCallback] runs when it is mounted at [location.hash]. *)
Definition AuthCallback (hash : string) : M unit :=
  console_log "AuthCallback mounted. Hash:" >>>
  let params := URLSearchParams (substring_1 hash) in
  let accessToken := params_get params "access_token" in
  let refreshToken := params_get params "refresh_token" in
  let expiresIn := params_get params "expires_in" in
  let error := params_get params "error" in
  if truthy_string error then
    console_error "Authentication error from callback:" >>>
    setAuthError (JString ("Login failed: " +:+ replace_underscores (String_of error)
                             +:+ ". Please try again.")) >>>
    clearTokens >>>
    navigate "/"
      (JObject [("state",
         JObject [("authError",
           JString ("Login failed: " +:+ replace_underscores (String_of error) +:+ "."))])])
  else if truthy_string accessToken && truthy_string expiresIn then
    console_log "Tokens received from hash." >>>
    storeTokens accessToken refreshToken expiresIn >>>
    navigate "/" JUndefined
  else
    console_warn "No tokens or error found in hash:" >>>
    setAuthError (JString
      "Authentication callback did not provide necessary tokens or error information.") >>>
    navigate "/"
      (JObject [("state",
         JObject [("authError", JString "Invalid authentication callback received.")])]).

End AuthCallback.

(** ** The view of [MainApp] *)

(** The entity [escapeHTML] writes for one of the six characters of its
    pattern (ampersand, less-than, greater-than, apostrophe, double quote,
    slash), and the character itself otherwise.  The double quote is
    character 34. *)
Definition escape (c : ascii) : string :=
  if Ascii.eqb c "&" then "&amp;"
  else if Ascii.eqb c "<" then "&lt;"
  else if Ascii.eqb c ">" then "&gt;"
  else if Ascii.eqb c "034" then "&quot;"
  else if Ascii.eqb c "'" then "&#39;"
  else if Ascii.eqb c "/" then "&#x2F;"
  else String c EmptyString.

(** [str.replace(pattern, match => escape\[match\])], with the global flag *)
Fixpoint escape_all (s : string) : string :=
  match s with
  | EmptyString => EmptyString
  | String c rest => escape c +:+ escape_all rest
  end.

(** [escapeHTML(str)] for a [string | null]. *)
Definition escapeHTML (str : option string) : string :=
  if negb (truthy_string str) then EmptyString else escape_all (String_of str).

(** What [MainApp] renders: the loading screen alone while [isAuthLoading];
    otherwise the user panel under [isLoggedIn && userData], the login prompt
    under [!isLoggedIn], and the form, whose inputs and submit button carry
    the [disabled] attributes below. *)
Definition shows_loading (w : World) : bool := isAuthLoading w.

Definition shows_user_info (w : World) : bool :=
  negb (isAuthLoading w) && (isLoggedIn w && truthy (userData w)).

Definition shows_login_prompt (w : World) : bool :=
  negb (isAuthLoading w) && negb (isLoggedIn w).

Definition inputs_disabled (w : World) : bool :=
  negb (isLoggedIn w) || isConverting w.

Definition submit_disabled (w : World) : bool :=
  negb (isLoggedIn w) || isConverting w || negb (truthy (playlistUrl w)).

(** ** The earlier draft with a session cookie

    The first [App] of the same file keeps no token: the browser sends the
    session cookie ([withCredentials]), the axios instance has no
    interceptor, and the session is whatever the backend says.  Its
    [fetchAPI], [checkAuthStatus], [handleLogout] and [handleConvert] are
    embedded here over a world of their own: the React state cells of that
    component, the console, the requests dispatched, and the query string of
    the page ([window.location.search]), which [history.replaceState] to the
    bare path empties. *)

Module CookieDraft.

Record World : Type := {
  isLoggedIn : bool;
  userData : JSValue;
  playlistUrl : JSValue;
  playlistName : JSValue;
  isLoading : bool;
  isConverting : bool;
  error : JSValue;
  results : JSValue;
  console : list (Level * string);
  network : list Request;
  location_search : string
}.

Definition with_isLoggedIn (b : bool) (w : World) : World :=
  Build_World b (userData w) (playlistUrl w) (playlistName w) (isLoading w)
    (isConverting w) (error w) (results w) (console w) (network w) (location_search w).

Definition with_userData (v : JSValue) (w : World) : World :=
  Build_World (isLoggedIn w) v (playlistUrl w) (playlistName w) (isLoading w)
    (isConverting w) (error w) (results w) (console w) (network w) (location_search w).

Definition with_playlistUrl (v : JSValue) (w : World) : World :=
  Build_World (isLoggedIn w) (userData w) v (playlistName w) (isLoading w)
    (isConverting w) (error w) (results w) (console w) (network w) (location_search w).

Definition with_playlistName (v : JSValue) (w : World) : World :=
  Build_World (isLoggedIn w) (userData w) (playlistUrl w) v (isLoading w)
    (isConverting w) (error w) (results w) (console w) (network w) (location_search w).

Definition with_isLoading (b : bool) (w : World) : World :=
  Build_World (isLoggedIn w) (userData w) (playlistUrl w) (playlistName w) b
    (isConverting w) (error w) (results w) (console w) (network w) (location_search w).

Definition with_isConverting (b : bool) (w : World) : World :=
  Build_World (isLoggedIn w) (userData w) (playlistUrl w) (playlistName w) (isLoading w)
    b (error w) (results w) (console w) (network w) (location_search w).

Definition with_error (v : JSValue) (w : World) : World :=
  Build_World (isLoggedIn w) (userData w) (playlistUrl w) (playlistName w) (isLoading w)
    (isConverting w) v (results w) (console w) (network w) (location_search w).

Definition with_results (v : JSValue) (w : World) : World :=
  Build_World (isLoggedIn w) (userData w) (playlistUrl w) (playlistName w) (isLoading w)
    (isConverting w) (error w) v (console w) (network w) (location_search w).

Definition with_console (c : list (Level * string)) (w : World) : World :=
  Build_World (isLoggedIn w) (userData w) (playlistUrl w) (playlistName w) (isLoading w)
    (isConverting w) (error w) (results w) c (network w) (location_search w).

Definition with_network (n : list Request) (w : World) : World :=
  Build_World (isLoggedIn w) (userData w) (playlistUrl w) (playlistName w) (isLoading w)
    (isConverting w) (error w) (results w) (console w) n (location_search w).

Definition with_location_search (q : string) (w : World) : World :=
  Build_World (isLoggedIn w) (userData w) (playlistUrl w) (playlistName w) (isLoading w)
    (isConverting w) (error w) (results w) (console w) (network w) q.

Definition M (A : Type) : Type := World -> A * World.

Definition ret {A : Type} (a : A) : M A := fun w => (a, w).

Definition bind {A B : Type} (m : M A) (k : A -> M B) : M B :=
  fun w => let (a, w') := m w in k a w'.

Declare Scope cookie_scope.
Delimit Scope cookie_scope with cookie.

Notation "'let*' x ':=' m 'in' k" := (bind m (fun x => k))
  (at level 10, x name, m at level 100, k at level 200) : cookie_scope.
Notation "m >>> k" := (bind m (fun _ => k))
  (at level 90, right associativity) : cookie_scope.

Local Open Scope cookie_scope.

Definition result_of {A : Type} (m : M A) (w : World) : A := fst (m w).
Definition world_after {A : Type} (m : M A) (w : World) : World := snd (m w).

Definition modify (f : World -> World) : M unit := fun w => (tt, f w).
Definition gets {A : Type} (f : World -> A) : M A := fun w => (f w, w).

Definition console_log (msg : string) : M unit :=
  modify (fun w => with_console (console w ++ [(LevelLog, msg)]) w).
Definition console_error (msg : string) : M unit :=
  modify (fun w => with_console (console w ++ [(LevelError, msg)]) w).

Definition setIsLoggedIn (b : bool) : M unit := modify (with_isLoggedIn b).
Definition setUserData (v : JSValue) : M unit := modify (with_userData v).
Definition setPlaylistUrl (v : JSValue) : M unit := modify (with_playlistUrl v).
Definition setPlaylistName (v : JSValue) : M unit := modify (with_playlistName v).
Definition setIsLoading (b : bool) : M unit := modify (with_isLoading b).
Definition setIsConverting (b : bool) : M unit := modify (with_isConverting b).
Definition setError (v : JSValue) : M unit := modify (with_error v).
Definition setResults (v : JSValue) : M unit := modify (with_results v).

(** [window.history.replaceState({}, document.title, window.location.pathname)] *)
Definition clean_the_URL : M unit := modify (with_location_search EmptyString).

Section App.

Variable server : Request -> Transport.
Variable URLSearchParams : string -> list (string * string).

(** [apiClient(config)]: no interceptor; the request goes out once. *)
Definition apiClient (config : Request) : M AxiosResult :=
  modify (fun w => with_network (network w ++ [config]) w) >>>
  ret (settle (server config)).

Definition fetchAPI (endpoint : string) (options : Options) : M JSValue :=
  let config := fetchAPI_config endpoint options in
  let* r := apiClient config in
  match r with
  | Resolved _ body => ret body
  | Rejected err =>
      console_error "Axios API Error:" >>>
      let errorData :=
        match response err with Some (_, d) => d | None => JUndefined end in
      let status := option_map fst (response err) in
      let* errorMessage :=
        if truthy errorData then
          let errorMessage :=
            js_or (js_or (get_prop errorData "message") (get_prop errorData "error"))
              (JString ("Request failed with status " +:+ status_text status)) in
          if status_is status 401 || truthy (get_prop errorData "auth_required") then
            setIsLoggedIn false >>>
            setUserData JNull >>>
            ret (js_or (get_prop errorData "error")
                   (JString "Authentication required. Please log in."))
          else ret errorMessage
        else if request err then
          ret (JString "No response received from server. Check network or server status.")
        else
          ret (JString (message err)) in
      setError errorMessage >>>
      setIsLoading false >>>
      setIsConverting false >>>
      ret JNull
  end.

(** [checkAuthStatus]; its [catch] block cannot be reached, since [fetchAPI]
    catches everything, and the two branches that hold only comments do
    nothing. *)
Definition checkAuthStatus : M JSValue :=
  setIsLoading true >>>
  setError JNull >>>
  setResults JNull >>>
  console_log "Checking auth status..." >>>
  let* data := fetchAPI "/auth/status" no_options in
  (if truthy data && truthy (get_prop data "logged_in") then
     console_log "User logged in:" >>>
     setIsLoggedIn true >>>
     setUserData (get_prop data "user")
   else
     console_log "User not logged in." >>>
     setIsLoggedIn false >>>
     setUserData JNull >>>
     let* search := gets location_search in
     let urlParams := URLSearchParams search in
     let errorParam := params_get urlParams "error" in
     if truthy_string errorParam then
       setError (JString ("Login failed: " +:+ replace_underscores (String_of errorParam)
                            +:+ ". Please try again.")) >>>
       clean_the_URL
     else ret tt) >>>
  setIsLoading false >>>
  ret JUndefined.

Definition handleLogout : M JSValue :=
  setIsLoading true >>>
  setError JNull >>>
  setResults JNull >>>
  fetchAPI "/auth/logout"
    {| opt_method := Some "POST"; opt_body := JUndefined; opt_headers := None |} >>>
  setIsLoggedIn false >>>
  setUserData JNull >>>
  setIsLoading false >>>
  ret JUndefined.

Definition handleConvert : M JSValue :=
  setIsConverting true >>>
  setError JNull >>>
  setResults JNull >>>
  let* playlistUrl := gets playlistUrl in
  let* playlistName := gets playlistName in
  let postData :=
    JObject [("playlist_url", playlistUrl);
             ("playlist_name", js_or playlistName (JString "Converted YouTube Playlist"))] in
  let* data :=
    fetchAPI "/convert"
      {| opt_method := Some "POST"; opt_body := postData; opt_headers := None |} in
  (if truthy data && truthy (get_prop data "success") then
     setResults (get_prop data "data") >>>
     setPlaylistUrl (JString "") >>>
     setPlaylistName (JString "")
   else if truthy data && truthy (get_prop data "error") then
     setError (get_prop data "error") >>>
     (if truthy (get_prop data "data") then setResults (get_prop data "data")
      else ret tt)
   else ret tt) >>>
  setIsConverting false >>>
  ret JUndefined.

End App.

(** What this [App] renders in its header: the user panel under
    [!isLoading && isLoggedIn && userData], the login prompt under
    [!isLoading && !isLoggedIn]. *)
Definition shows_user_info (w : World) : bool :=
  negb (isLoading w) && (isLoggedIn w && truthy (userData w)).

Definition shows_login_prompt (w : World) : bool :=
  negb (isLoading w) && negb (isLoggedIn w).

(** The request [handleLogout] sends. *)
Definition logout_request : Request :=
  fetchAPI_config "/auth/logout"
    {| opt_method := Some "POST"; opt_body := JUndefined; opt_headers := None |}.

(** A world to run examples in: the initial values of the state cells and
    the given query string. *)
Definition fresh_world (search : string) : World :=
  {| isLoggedIn := false; userData := JNull;
     playlistUrl := JString ""; playlistName := JString "";
     isLoading := true; isConverting := false; error := JNull; results := JNull;
     console := []; network := []; location_search := search |}.

Ltac run :=
  cbv [world_after result_of bind ret modify gets apiClient
       console_log console_error clean_the_URL
       setIsLoggedIn setUserData setPlaylistUrl setPlaylistName
       setIsLoading setIsConverting setError setResults];
  cbn [fst snd negb andb orb
       with_isLoggedIn with_userData with_playlistUrl with_playlistName with_isLoading
       with_isConverting with_error with_results with_console with_network
       with_location_search
       isLoggedIn userData playlistUrl playlistName isLoading isConverting
       error results console network location_search].

Ltac same_world :=
  cbv [with_isLoggedIn with_userData with_playlistUrl with_playlistName with_isLoading
       with_isConverting with_error with_results with_console with_network
       with_location_search
       isLoggedIn userData playlistUrl playlistName isLoading isConverting
       error results console network location_search];
  reflexivity.

End CookieDraft.

(** ** Vocabulary of the properties *)

(** No entry of the token store is left. *)
Definition tokens_cleared (w : World) : Prop :=
  localStorage w !! ACCESS_TOKEN_KEY = None /\
  localStorage w !! REFRESH_TOKEN_KEY = None /\
  localStorage w !! EXPIRY_TIMESTAMP_KEY = None.

(** The expiry [getExpiryTimestamp] reads, and the reading the next
    [Date.now()] returns. *)
Definition stored_expiry (w : World) : option number := result_of getExpiryTimestamp w.
Definition now (w : World) : Z := clock w (clock_reads w).

(** The clock never runs backwards. *)
Definition clock_monotone (w : World) : Prop :=
  forall i j : nat, (i <= j)%nat -> clock w i <= clock w j.

Ltac run :=
  cbv [world_after result_of bind ret modify gets and_then
       localStorage_getItem localStorage_setItem localStorage_removeItem
       console_log console_warn console_error navigate Date_now
       setAuthError setIsLoggedIn setUserData setPlaylistUrl setPlaylistName
       setIsAuthLoading setIsConverting setError setResults
       getAccessToken getRefreshToken];
  cbn [fst snd negb andb orb
       with_localStorage with_clock_reads with_console with_network with_navigations
       with_authError with_isLoggedIn with_userData with_playlistUrl with_playlistName
       with_isAuthLoading with_isConverting with_error with_results
       localStorage clock clock_reads console network navigations authError
       isLoggedIn userData playlistUrl playlistName isAuthLoading isConverting
       error results].

(** Both sides of an equation between worlds, field by field. *)
Ltac same_world :=
  cbv [with_localStorage with_clock_reads with_console with_network with_navigations
       with_authError with_isLoggedIn with_userData with_playlistUrl with_playlistName
       with_isAuthLoading with_isConverting with_error with_results
       localStorage clock clock_reads console network navigations authError
       isLoggedIn userData playlistUrl playlistName isAuthLoading isConverting
       error results];
  reflexivity.

(** The policy in the words of the specification: a credential is valid iff
    [nowMs < expiryTimestampMs - skewMs], and never without a recorded
    expiry. *)
Definition isValid (expiryTimestampMs : option Z) (nowMs skewMs : Z) : bool :=
  match expiryTimestampMs with
  | Some e => nowMs <? e - skewMs
  | None => false
  end.

(** The expiry timestamp recorded in the store: the entry, when there is one
    and it reads as a number. *)
Definition recorded_expiry (w : World) : option Z :=
  match stored_expiry w with
  | Some (Int e) => Some e
  | _ => None
  end.

(** A world to run examples in: the given store, a clock that starts at
    [start] and advances by one millisecond per reading, and the initial
    values of the React state cells. *)
Definition fresh_world (store : gmap string string) (start : Z) : World :=
  {| localStorage := store;
     clock := fun n => start + Z.of_nat n;
     clock_reads := 0;
     console := [];
     network := [];
     navigations := [];
     authError := JNull;
     isLoggedIn := false;
     userData := JNull;
     playlistUrl := JString "";
     playlistName := JString "";
     isAuthLoading := true;
     isConverting := false;
     error := JNull;
     results := JNull |}.

(** A reading of [URLSearchParams] for text without [+] and without percent
    escapes: the pairs are separated by [&], a name ends at the first [=]. *)
Fixpoint split_on (sep : ascii) (s : string) : list string :=
  match s with
  | EmptyString => [EmptyString]
  | String c rest =>
      if Ascii.eqb c sep then EmptyString :: split_on sep rest
      else match split_on sep rest with
           | piece :: pieces => String c piece :: pieces
           | [] => [String c EmptyString]
           end
  end.

Fixpoint name_and_value (s : string) : string * string :=
  match s with
  | EmptyString => (EmptyString, EmptyString)
  | String c rest =>
      if Ascii.eqb c "=" then (EmptyString, rest)
      else let (name, value) := name_and_value rest in (String c name, value)
  end.

Definition form_pairs (text : string) : list (string * string) :=
  map name_and_value
    (filter (fun piece => negb (String.eqb piece EmptyString)) (split_on "&" text)).

(** The request [fetchAPI] dispatches and the world the interceptor leaves. *)
Definition dispatched (endpoint : string) (options : Options) (w : World) : Request :=
  result_of (request_interceptor (fetchAPI_config endpoint options)) w.
Definition intercepted (endpoint : string) (options : Options) (w : World) : World :=
  world_after (request_interceptor (fetchAPI_config endpoint options)) w.

(** The body [handleConvert] posts, the options it passes to [fetchAPI], and
    the world in which it calls it. *)
Definition postData (w : World) : JSValue :=
  JObject [("playlist_url", playlistUrl w);
           ("playlist_name", js_or (playlistName w) (JString "Converted YouTube Playlist"))].

Definition convert_options (w : World) : Options :=
  {| opt_method := Some "POST"; opt_body := postData w; opt_headers := None |}.

Definition converting (w : World) : World :=
  with_results JNull (with_error JNull (with_isConverting true w)).

(** The store [clearTokens] leaves. *)
Definition clear_store (ls : gmap string string) : gmap string string :=
  delete EXPIRY_TIMESTAMP_KEY (delete REFRESH_TOKEN_KEY (delete ACCESS_TOKEN_KEY ls)).

(** The store a complete [storeTokens] leaves, for the expiry it computed. *)
Definition store_with (accessToken : string) (refreshToken : option string)
    (expiryTimestamp : number) (ls : gmap string string) : gmap string string :=
  <[EXPIRY_TIMESTAMP_KEY := toString expiryTimestamp]>
    ((if truthy_string refreshToken
      then <[REFRESH_TOKEN_KEY := String_of refreshToken]>
      else delete REFRESH_TOKEN_KEY)
       (<[ACCESS_TOKEN_KEY := accessToken]> ls)).

Definition is_token_key (k : string) : Prop :=
  k = ACCESS_TOKEN_KEY \/ k = REFRESH_TOKEN_KEY \/ k = EXPIRY_TIMESTAMP_KEY.

(** The entries of the token store go together: an access token exactly when
    an expiry, and a refresh token only with an access token. *)
Definition store_paired (ls : gmap string string) : Prop :=
  (is_Some (ls !! ACCESS_TOKEN_KEY) <-> is_Some (ls !! EXPIRY_TIMESTAMP_KEY)) /\
  (is_Some (ls !! REFRESH_TOKEN_KEY) -> is_Some (ls !! ACCESS_TOKEN_KEY)).

(** The world in which [checkAuthStatus] calls [fetchAPI], after it has read
    the clock once to accept the token. *)
Definition checking (w : World) : World :=
  with_console
    (console w ++ [(LevelLog, "Token found, checking status with /api/auth/status...")])
    (with_clock_reads (S (clock_reads w)) (with_error JNull (with_isAuthLoading true w))).

(** A logged-in session shows a user. *)
Definition session_consistent (w : World) : Prop :=
  isLoggedIn w = true -> truthy (userData w) = true.

(** The message [fetchAPI] shows for a failure other than a 401: the outcome
    of the [else if] chain of its [catch] block on the error axios builds. *)
Definition failure_message (t : Transport) : JSValue :=
  match t with
  | Reply status body =>
      if truthy body then
        js_or (js_or (get_prop body "message") (get_prop body "error"))
          (JString ("Request failed with status " +:+ toString (Int status)))
      else JString "No response received from server. Check network or server status."
  | NoReply => JString "No response received from server. Check network or server status."
  | SetupFailure msg => JString msg
  end.

(** A failure other than a 401: anything but a 2xx response and a 401. *)
Definition plain_failure (t : Transport) : bool :=
  match t with
  | Reply status _ => negb ((200 <=? status) && (status <? 300)) && negb (status =? 401)
  | _ => true
  end.

(** The seven cases of [escape] on a character. *)
Ltac escape_cases c :=
  unfold escape;
  destruct (Ascii.eqb_spec c "&") as [-> | ?];
  [| destruct (Ascii.eqb_spec c "<") as [-> | ?];
     [| destruct (Ascii.eqb_spec c ">") as [-> | ?];
        [| destruct (Ascii.eqb_spec c "034") as [-> | ?];
           [| destruct (Ascii.eqb_spec c "'") as [-> | ?];
              [| destruct (Ascii.eqb_spec c "/") as [-> | ?]]]]]].

(** The integers a JavaScript number holds exactly and prints in plain
    decimal: the safe integers, up to [Number.MAX_SAFE_INTEGER]. *)
Definition safe_integer (z : Z) : Prop :=
  - 9007199254740991 <= z <= 9007199254740991.

(** The expiry of a token issued at time [issued] for [n] seconds is computed
    exactly: the time, the lifetime in milliseconds and their sum are safe
    integers. *)
Definition exact_expiry (issued n : Z) : Prop :=
  safe_integer issued /\ safe_integer (n * 1000) /\ safe_integer (issued + n * 1000).

(** * Properties *)

(** ** Printing and reading back a number *)

Lemma digit_prefix_string_of_uint (d : uint) :
  digit_prefix (NilEmpty.string_of_uint d) = d.
Proof. induction d; simpl; congruence. Qed.

Lemma parse_digits_string_of_uint (d : uint) :
  parse_digits (NilZero.string_of_uint d) = Int (Z.of_uint d).
Proof.
  destruct d; try reflexivity;
    unfold parse_digits, NilZero.string_of_uint;
    rewrite digit_prefix_string_of_uint; reflexivity.
Qed.

Lemma parseInt_string_of_uint (d : uint) :
  parseInt (NilZero.string_of_uint d) = Int (Z.of_uint d).
Proof.
  rewrite <- parse_digits_string_of_uint.
  destruct d; reflexivity.
Qed.

Lemma parseInt_string_of_int (i : int) :
  parseInt (NilZero.string_of_int i) = Int (Z.of_int i).
Proof.
  destruct i as [d | d]; simpl NilZero.string_of_int.
  - apply parseInt_string_of_uint.
  - unfold parseInt.
    change (skip_white_space (String "-" (NilZero.string_of_uint d)))
      with (String "-" (NilZero.string_of_uint d)).
    cbv beta iota. rewrite parse_digits_string_of_uint.
    simpl. destruct (Z.of_uint d); reflexivity.
Qed.

(** Reading back what was printed: in the model for every integer, which
    is what the program does for the safe integers. *)
Lemma parseInt_toString (z : Z) : parseInt (toString (Int z)) = Int z.
Proof.
  unfold toString. rewrite parseInt_string_of_int. f_equal. apply DecimalZ.of_to.
Qed.

Lemma toString_nonempty (n : number) : truthy_string (Some (toString n)) = true.
Proof.
  destruct n as [z |]; [| reflexivity].
  destruct z as [| p | p]; try reflexivity.
  simpl. generalize (DecimalPos.Unsigned.to_uint_nonnil p).
  destruct (Pos.to_uint p); simpl; congruence.
Qed.

(** ** Running the handlers *)

Lemma token_keys_distinct :
  ACCESS_TOKEN_KEY <> REFRESH_TOKEN_KEY /\
  ACCESS_TOKEN_KEY <> EXPIRY_TIMESTAMP_KEY /\
  REFRESH_TOKEN_KEY <> EXPIRY_TIMESTAMP_KEY.
Proof. repeat split; discriminate. Qed.

Lemma cleared_lookup (ls : gmap string string) (k : string) :
  k = ACCESS_TOKEN_KEY \/ k = REFRESH_TOKEN_KEY \/ k = EXPIRY_TIMESTAMP_KEY ->
  delete EXPIRY_TIMESTAMP_KEY (delete REFRESH_TOKEN_KEY (delete ACCESS_TOKEN_KEY ls)) !! k
  = None.
Proof.
  destruct token_keys_distinct as (Har & Hae & Hre).
  intros [-> | [-> | ->]].
  - rewrite lookup_delete_ne, lookup_delete_ne by congruence. apply lookup_delete_eq.
  - rewrite lookup_delete_ne by congruence. apply lookup_delete_eq.
  - apply lookup_delete_eq.
Qed.

Lemma clearTokens_run (w : World) :
  clearTokens w =
  (tt, with_console (console w ++ [(LevelLog, "Tokens cleared.")])
         (with_localStorage
            (fun ls => delete EXPIRY_TIMESTAMP_KEY
                         (delete REFRESH_TOKEN_KEY (delete ACCESS_TOKEN_KEY ls))) w)).
Proof. reflexivity. Qed.

Lemma clearTokens_cleared (w : World) : tokens_cleared (world_after clearTokens w).
Proof.
  unfold world_after. rewrite clearTokens_run. run.
  repeat split; apply cleared_lookup; auto.
Qed.

Lemma isTokenExpired_run (w : World) :
  isTokenExpired w =
  if truthy_timestamp (stored_expiry w)
  then (num_ge (Int (now w)) (num_sub (Number_of (stored_expiry w)) (Int 60000)),
        with_clock_reads (S (clock_reads w)) w)
  else (true, w).
Proof.
  unfold isTokenExpired, stored_expiry, now, getExpiryTimestamp. run.
  destruct (truthy_timestamp _); reflexivity.
Qed.

(** ** The expiry policy *)

Lemma isTokenExpired_false_iff (w : World) :
  result_of isTokenExpired w = false <->
  exists e, recorded_expiry w = Some e /\ e <> 0 /\ now w < e - 60000.
Proof.
  unfold result_of, recorded_expiry. rewrite isTokenExpired_run.
  destruct (stored_expiry w) as [[e |] |]; simpl.
  - destruct (Z.eqb_spec e 0) as [-> | Hne]; simpl.
    + split; [discriminate | intros (e & [= <-] & He & _); congruence].
    + rewrite Z.leb_gt. split.
      * intros H. exists e. auto.
      * intros (e' & [= <-] & _ & H). exact H.
  - split; [discriminate | intros (e & [=] & _)].
  - split; [discriminate | intros (e & [=] & _)].
Qed.

(** C2.  [isTokenExpired] is the expiry policy, a function of the recorded
    expiry and of the clock reading alone: it changes nothing but the count
    of clock readings; the credential is valid exactly when its expiry entry
    reads as a non-zero number [e] with [now < e - 60000]; for a clock reading
    since the epoch this is the specification's [isValid] with a skew of
    60000 ms; the credential is invalid during the last 60 seconds before
    expiry and from expiry on, and whenever no expiry is recorded. *)
Theorem isTokenExpired_expiry_policy (w : World) :
  (world_after isTokenExpired w = w \/
   world_after isTokenExpired w = with_clock_reads (S (clock_reads w)) w) /\
  (result_of isTokenExpired w = false <->
   exists e, recorded_expiry w = Some e /\ e <> 0 /\ now w < e - 60000) /\
  (0 <= now w ->
   negb (result_of isTokenExpired w) = isValid (recorded_expiry w) (now w) 60000) /\
  (forall e, recorded_expiry w = Some e -> e - 60000 <= now w ->
             result_of isTokenExpired w = true) /\
  (recorded_expiry w = None -> result_of isTokenExpired w = true).
Proof.
  split; [| split; [| split; [| split]]].
  - unfold world_after. rewrite isTokenExpired_run.
    destruct (truthy_timestamp _); auto.
  - apply isTokenExpired_false_iff.
  - intros Hnow. pose proof (isTokenExpired_false_iff w) as Hiff.
    destruct (result_of isTokenExpired w); simpl.
    + symmetry. destruct (recorded_expiry w) as [e |] eqn:He; [| reflexivity].
      simpl. apply Z.ltb_ge.
      destruct (Z.lt_ge_cases (now w) (e - 60000)) as [Hlt | Hge]; [| exact Hge].
      assert (true = false) as Habs; [| discriminate Habs].
      apply Hiff. exists e. repeat split; auto. lia.
    + destruct (proj1 Hiff eq_refl) as (e & -> & _ & Hlt). simpl.
      symmetry. apply Z.ltb_lt. exact Hlt.
  - intros e He Hge. pose proof (isTokenExpired_false_iff w) as Hiff.
    destruct (result_of isTokenExpired w); [reflexivity |].
    destruct (proj1 Hiff eq_refl) as (e' & He' & _ & Hlt).
    rewrite He in He'. injection He' as <-. lia.
  - intros Hnone. pose proof (isTokenExpired_false_iff w) as Hiff.
    destruct (result_of isTokenExpired w); [reflexivity |].
    destruct (proj1 Hiff eq_refl) as (e' & He' & _). congruence.
Qed.

(** An hour-long token, checked one second after it was issued. *)
Lemma isTokenExpired_expiry_policy_witness :
  let w := fresh_world {[ EXPIRY_TIMESTAMP_KEY := "1700003600000" ]} 1700000001000 in
  0 <= now w /\
  negb (result_of isTokenExpired w) = isValid (recorded_expiry w) (now w) 60000.
Proof.
  intros w. assert (0 <= now w) as Hnow by (vm_compute; discriminate).
  split; [exact Hnow |].
  exact (proj1 (proj2 (proj2 (isTokenExpired_expiry_policy w))) Hnow).
Defined.

(** ** The token store *)

Lemma storeTokens_returns_undefined (accessToken refreshToken expiresIn : option string)
    (w : World) :
  result_of (storeTokens accessToken refreshToken expiresIn) w = JUndefined.
Proof.
  unfold storeTokens.
  destruct (negb (truthy_string accessToken) || negb (truthy_string expiresIn));
    destruct (truthy_string refreshToken); reflexivity.
Qed.

(** C5, as the code has it.  A save with a missing (null or empty) access
    token or lifetime value leaves the three entries, and the rest of the
    store, as they were, and writes one error line to the console.  It
    returns [undefined], which is what every save returns: the caller is not
    told. *)
Theorem storeTokens_malformed_is_silent_noop
    (accessToken refreshToken expiresIn : option string) (w : World) :
  truthy_string accessToken = false \/ truthy_string expiresIn = false ->
  let w' := world_after (storeTokens accessToken refreshToken expiresIn) w in
  localStorage w' = localStorage w /\
  console w' =
    console w ++ [(LevelError, "Cannot store tokens: Access token or expires_in missing.")] /\
  w' = with_console (console w') w /\
  result_of (storeTokens accessToken refreshToken expiresIn) w = JUndefined /\
  (forall a r e w0, result_of (storeTokens a r e) w0 = JUndefined).
Proof.
  intros Hmissing w'. subst w'. unfold world_after, result_of, storeTokens.
  assert (negb (truthy_string accessToken) || negb (truthy_string expiresIn) = true)
    as -> by (destruct Hmissing as [-> | ->]; simpl; auto using orb_true_r).
  run. repeat split. apply storeTokens_returns_undefined.
Qed.

Lemma storeTokens_malformed_is_silent_noop_witness :
  let w := fresh_world {[ ACCESS_TOKEN_KEY := "old" ]} 1700000000000 in
  localStorage (world_after (storeTokens None None (Some "3600")) w) = localStorage w.
Proof.
  intros w.
  exact (proj1 (storeTokens_malformed_is_silent_noop None None (Some "3600") w
                  (or_introl eq_refl))).
Defined.

(** C5, as stated, fails: a save without an access token hands its caller
    the very value a complete save hands it, and no condition with it. *)
Lemma storeTokens_malformed_not_reported :
  let w := fresh_world ∅ 1700000000000 in
  result_of (storeTokens None None (Some "3600")) w = JUndefined /\
  result_of (storeTokens (Some "A") None (Some "3600")) w = JUndefined /\
  result_of (storeTokens None None (Some "3600")) w
  = result_of (storeTokens (Some "A") None (Some "3600")) w.
Proof. repeat split. Qed.

(** ** Logout *)

(** C9.  Logout clears the three entries of the token store, logs the
    session out, clears the conversion result and the error, and sends
    nothing to the network. *)
Theorem handleLogout_is_local (w : World) :
  let w' := world_after handleLogout w in
  tokens_cleared w' /\
  isLoggedIn w' = false /\
  userData w' = JNull /\
  results w' = JNull /\
  error w' = JNull /\
  network w' = network w.
Proof.
  unfold handleLogout. run. rewrite clearTokens_run. run.
  repeat split; apply cleared_lookup; auto.
Qed.

(** ** The OAuth callback *)

Section AuthCallbackProperties.

Variable URLSearchParams : string -> list (string * string).

Lemma truthy_string_Some (s : string) : s <> EmptyString -> truthy_string (Some s) = true.
Proof. destruct s; [congruence | reflexivity]. Qed.

(** C7.  A fragment with an access token and a lifetime value, no refresh
    token and no error leaves a store whose access token is the one
    received and whose refresh entry is absent whatever was there before,
    and the handler navigates home with no error.  For a lifetime that reads
    as [n] seconds, with the time of the call, [n * 1000] and their sum all
    safe integers, the expiry entry is the decimal text of the time of the
    call plus [n * 1000] ms, and reads back as that number. *)
Theorem AuthCallback_stores_tokens (hash accessToken expiresIn : string) (w : World) :
  let params := URLSearchParams (substring_1 hash) in
  truthy_string (params_get params "error") = false ->
  params_get params "access_token" = Some accessToken ->
  accessToken <> EmptyString ->
  params_get params "expires_in" = Some expiresIn ->
  expiresIn <> EmptyString ->
  truthy_string (params_get params "refresh_token") = false ->
  let w' := world_after (AuthCallback URLSearchParams hash) w in
  localStorage w' !! ACCESS_TOKEN_KEY = Some accessToken /\
  localStorage w' !! REFRESH_TOKEN_KEY = None /\
  navigations w' = navigations w ++ [("/", JUndefined)] /\
  (forall n : Z,
     parseInt expiresIn = Int n -> exact_expiry (now w) n ->
     localStorage w' !! EXPIRY_TIMESTAMP_KEY = Some (toString (Int (now w + n * 1000))) /\
     stored_expiry w' = Some (Int (now w + n * 1000))).
Proof.
  intros params Herror Haccess Ha Hexpires He Hrefresh w'. subst w'.
  destruct token_keys_distinct as (Har & Hae & Hre).
  unfold AuthCallback, stored_expiry, getExpiryTimestamp. run.
  fold params. rewrite Herror, Haccess, Hexpires.
  unfold storeTokens. rewrite Hrefresh, !truthy_string_Some by assumption.
  cbn [andb orb negb]. run. cbn [String_of].
  split; [| split; [| split]].
  - rewrite lookup_insert_ne, lookup_delete_ne by congruence. apply lookup_insert_eq.
  - rewrite lookup_insert_ne by congruence. apply lookup_delete_eq.
  - reflexivity.
  - intros n Hn _. rewrite !lookup_insert_eq, Hn. simpl num_mul. simpl num_add.
    split; [reflexivity |].
    rewrite toString_nonempty. cbn [String_of]. rewrite parseInt_toString.
    reflexivity.
Qed.

(** A callback without an error and without both tokens changes nothing in
    the token store; it records its reason and navigates home with it. *)
Lemma AuthCallback_malformed_run (hash : string) (w : World) :
  let params := URLSearchParams (substring_1 hash) in
  truthy_string (params_get params "error") = false ->
  truthy_string (params_get params "access_token")
    && truthy_string (params_get params "expires_in") = false ->
  let w' := world_after (AuthCallback URLSearchParams hash) w in
  localStorage w' = localStorage w /\
  authError w' = JString
    "Authentication callback did not provide necessary tokens or error information." /\
  navigations w' = navigations w ++
    [("/", JObject [("state", JObject [("authError",
             JString "Invalid authentication callback received.")])])].
Proof.
  intros params Herror Htokens w'. subst w'.
  unfold AuthCallback. run. fold params. rewrite Herror, Htokens. run.
  repeat split.
Qed.

End AuthCallbackProperties.

(** The fragment of the specification's example, on a store that still holds
    a refresh token from an earlier login. *)
Lemma AuthCallback_stores_tokens_witness :
  let w := fresh_world {[ REFRESH_TOKEN_KEY := "old" ]} 1700000000000 in
  let w' := world_after (AuthCallback form_pairs "#access_token=A&expires_in=3600") w in
  localStorage w' !! ACCESS_TOKEN_KEY = Some "A" /\
  localStorage w' !! REFRESH_TOKEN_KEY = None /\
  stored_expiry w' = Some (Int (now w + 3600 * 1000)).
Proof.
  intros w w'.
  pose proof (AuthCallback_stores_tokens form_pairs
                "#access_token=A&expires_in=3600" "A" "3600" w
                eq_refl eq_refl ltac:(discriminate) eq_refl ltac:(discriminate) eq_refl)
    as (Ha & Hr & _ & He).
  assert (exact_expiry (now w) 3600) as Hexact
    by (repeat split; vm_compute; discriminate).
  split; [exact Ha | split; [exact Hr | exact (proj2 (He 3600 eq_refl Hexact))]].
Defined.

(** C8 at a failing input.  A callback whose fragment carries neither an
    error nor tokens leaves the stored credential in place: the three
    entries are what they were, while the reason is recorded and carried to
    the home route. *)
Theorem AuthCallback_malformed_keeps_tokens :
  let store : gmap string string :=
    {[ ACCESS_TOKEN_KEY := "A"; REFRESH_TOKEN_KEY := "R";
       EXPIRY_TIMESTAMP_KEY := "1700003600000" ]} in
  let w := fresh_world store 1700000000000 in
  let w' := world_after (AuthCallback form_pairs "#state=xyz") w in
  localStorage w' = store /\
  localStorage w' !! ACCESS_TOKEN_KEY = Some "A" /\
  ~ tokens_cleared w' /\
  navigations w' =
    [("/", JObject [("state", JObject [("authError",
             JString "Invalid authentication callback received.")])])].
Proof.
  intros store w w'.
  destruct (AuthCallback_malformed_run form_pairs "#state=xyz" w eq_refl eq_refl)
    as (Hstore & _ & Hnav).
  fold w' in Hstore, Hnav.
  assert (localStorage w' !! ACCESS_TOKEN_KEY = Some "A") as Haccess
    by (rewrite Hstore; reflexivity).
  split; [exact Hstore | split; [exact Haccess | split; [| exact Hnav]]].
  intros (Hnone & _). congruence.
Qed.

(** ** The request interceptor *)

(** Once expired, expired at every later reading of a clock that does not
    run backwards. *)
Lemma expired_stays_expired (e : option number) (t1 t2 : Z) :
  t1 <= t2 ->
  num_ge (Int t1) (num_sub (Number_of e) (Int 60000)) = true ->
  num_ge (Int t2) (num_sub (Number_of e) (Int 60000)) = true.
Proof.
  intros Hle. destruct e as [[e |] |]; simpl; try discriminate.
  - rewrite !Z.leb_le. lia.
  - rewrite !Z.leb_le. lia.
Qed.

Lemma request_interceptor_absent (config : Request) (w : World) :
  truthy_string (localStorage w !! ACCESS_TOKEN_KEY) = false ->
  request_interceptor config w =
  (config,
   with_console (console w ++ [(LevelLog, "No valid token found. Auth header not added.")]) w).
Proof.
  intros Htoken. unfold request_interceptor. run. rewrite Htoken. run.
  destruct w; reflexivity.
Qed.

Lemma request_interceptor_fresh (config : Request) (w : World) :
  truthy_string (localStorage w !! ACCESS_TOKEN_KEY) = true ->
  result_of isTokenExpired w = false ->
  request_interceptor config w =
  (set_header config "Authorization"
     (JString ("Bearer " +:+ String_of (localStorage w !! ACCESS_TOKEN_KEY))),
   with_console (console w ++ [(LevelLog, "Authorization header added.")])
     (with_clock_reads (S (clock_reads w)) w)).
Proof.
  intros Htoken. unfold result_of, request_interceptor. run. rewrite Htoken. run.
  rewrite isTokenExpired_run.
  destruct (truthy_timestamp (stored_expiry w)); [| discriminate].
  run. intros ->. reflexivity.
Qed.

Lemma request_interceptor_stale (config : Request) (w : World) :
  clock_monotone w ->
  truthy_string (localStorage w !! ACCESS_TOKEN_KEY) = true ->
  result_of isTokenExpired w = true ->
  exists n,
    (clock_reads w <= n)%nat /\
    request_interceptor config w =
    (config,
     with_console
       (console w ++
          [(LevelWarn, "Token exists but is expired. Clearing tokens. Auth header not added.");
           (LevelLog, "Tokens cleared.")])
       (with_clock_reads n
          (with_localStorage
             (fun ls => delete EXPIRY_TIMESTAMP_KEY
                          (delete REFRESH_TOKEN_KEY (delete ACCESS_TOKEN_KEY ls))) w))).
Proof.
  intros Hclock Htoken. unfold result_of, request_interceptor. run. rewrite Htoken. run.
  rewrite isTokenExpired_run.
  destruct (truthy_timestamp (stored_expiry w)) eqn:Hexpiry; run.
  - intros Hexpired. rewrite Hexpired. run.
    rewrite isTokenExpired_run.
    change (stored_expiry _) with (stored_expiry w). rewrite Hexpiry.
    unfold now; run.
    rewrite (expired_stays_expired _ (clock w (clock_reads w)))
      by (auto using Hclock with arith).
    run. rewrite clearTokens_run. run.
    exists (S (S (clock_reads w))). split; [lia |].
    rewrite <- app_assoc. reflexivity.
  - intros _. rewrite isTokenExpired_run, Hexpiry. run. rewrite clearTokens_run. run.
    exists (clock_reads w). split; [lia |].
    rewrite <- app_assoc. reflexivity.
Qed.

(** Whatever it decides, the interceptor leaves the method, the address and
    the body of the request alone, and touches nothing but the token store,
    the clock and the console. *)
Lemma request_interceptor_frame (config : Request) (w : World) :
  exists ls n c hs,
    request_interceptor config w =
    ({| method := method config; url := url config; data := data config; headers := hs |},
     with_console c (with_clock_reads n (with_localStorage (fun _ => ls) w))).
Proof.
  unfold request_interceptor. run.
  destruct (truthy_string (localStorage w !! ACCESS_TOKEN_KEY)); run.
  - rewrite isTokenExpired_run.
    destruct (truthy_timestamp (stored_expiry w)) eqn:Hexpiry; run.
    + destruct (num_ge _ _); run.
      * rewrite isTokenExpired_run.
        change (stored_expiry _) with (stored_expiry w). rewrite Hexpiry.
        destruct (num_ge _ _); run.
        -- rewrite clearTokens_run. run. destruct config. do 4 eexists. same_world.
        -- destruct config. do 4 eexists. same_world.
      * do 4 eexists. same_world.
    + rewrite isTokenExpired_run, Hexpiry. run. rewrite clearTokens_run. run.
      destruct config. do 4 eexists. same_world.
  - destruct config. do 4 eexists. same_world.
Qed.

Lemma assoc_get_set (fields : list (string * JSValue)) (k : string) (v : JSValue) :
  assoc_get (assoc_set fields k v) k = v.
Proof.
  induction fields as [| [k' v'] rest IH]; simpl.
  - rewrite String.eqb_refl. reflexivity.
  - destruct (String.eqb k' k) eqn:Hk; simpl.
    + rewrite String.eqb_refl. reflexivity.
    + rewrite Hk. exact IH.
Qed.

Lemma fresh_world_clock_monotone (store : gmap string string) (start : Z) :
  clock_monotone (fresh_world store start).
Proof. intros i j Hij. simpl. lia. Qed.

Section GatewayProperties.

Variable server : Request -> Transport.

Lemma apiClient_run (config : Request) (w : World) :
  apiClient server config w =
  (settle (server (result_of (request_interceptor config) w)),
   with_network (network (world_after (request_interceptor config) w)
                   ++ [result_of (request_interceptor config) w])
     (world_after (request_interceptor config) w)).
Proof.
  unfold apiClient, result_of, world_after. run.
  destruct (request_interceptor config w) as [req w1]. reflexivity.
Qed.

(** C3.  What the gateway client dispatches for a request [config].  With
    a stored access token that the expiry policy accepts, the request goes
    out with the header [Authorization: Bearer <token>] and the store is
    untouched.  With a stored access token that the policy rejects, on a
    clock that does not run backwards, the three entries are removed and
    the request goes out as the caller built it, nothing attached.  Without
    a stored access token the request goes out as the caller built it and
    the store is untouched. *)
Theorem apiClient_authorization (config : Request) (w : World) :
  let token := localStorage w !! ACCESS_TOKEN_KEY in
  let w' := world_after (apiClient server config) w in
  (truthy_string token = true -> result_of isTokenExpired w = false ->
   let req := set_header config "Authorization" (JString ("Bearer " +:+ String_of token)) in
   network w' = network w ++ [req] /\
   assoc_get (headers req) "Authorization" = JString ("Bearer " +:+ String_of token) /\
   localStorage w' = localStorage w) /\
  (clock_monotone w -> truthy_string token = true -> result_of isTokenExpired w = true ->
   network w' = network w ++ [config] /\
   tokens_cleared w') /\
  (truthy_string token = false ->
   network w' = network w ++ [config] /\
   localStorage w' = localStorage w).
Proof.
  intros token w'. subst token w'. unfold world_after.
  rewrite apiClient_run. unfold world_after, result_of.
  split; [| split].
  - intros Htoken Hfresh. cbv zeta.
    rewrite (request_interceptor_fresh config w Htoken Hfresh). run.
    repeat split. apply assoc_get_set.
  - intros Hclock Htoken Hstale.
    destruct (request_interceptor_stale config w Hclock Htoken Hstale) as (n & _ & ->).
    run. repeat split; apply cleared_lookup; auto.
  - intros Htoken. rewrite (request_interceptor_absent config w Htoken). run.
    repeat split.
Qed.

End GatewayProperties.

(** A token that expired an hour ago is dropped and the request leaves
    without a header. *)
Lemma apiClient_authorization_witness :
  let w := fresh_world {[ ACCESS_TOKEN_KEY := "A"; EXPIRY_TIMESTAMP_KEY := "1699996400000" ]}
             1700000000000 in
  let config := fetchAPI_config "/auth/status" no_options in
  let w' := world_after (apiClient (fun _ => Reply 401 JNull) config) w in
  network w' = network w ++ [config] /\ tokens_cleared w'.
Proof.
  intros w config w'.
  exact (proj1 (proj2 (apiClient_authorization (fun _ => Reply 401 JNull) config w))
           (fresh_world_clock_monotone _ _) eq_refl eq_refl).
Defined.

(** ** [fetchAPI] *)

Section FetchProperties.

Variable server : Request -> Transport.

Lemma dispatched_frame (endpoint : string) (options : Options) (w : World) :
  method (dispatched endpoint options w) = method (fetchAPI_config endpoint options) /\
  url (dispatched endpoint options w) = endpoint /\
  data (dispatched endpoint options w) = opt_body options.
Proof.
  unfold dispatched, result_of.
  destruct (request_interceptor_frame (fetchAPI_config endpoint options) w)
    as (ls & n & c & hs & ->).
  repeat split.
Qed.

Lemma intercepted_frame (endpoint : string) (options : Options) (w : World) :
  exists ls n c,
    intercepted endpoint options w =
    with_console c (with_clock_reads n (with_localStorage (fun _ => ls) w)).
Proof.
  unfold intercepted, world_after.
  destruct (request_interceptor_frame (fetchAPI_config endpoint options) w)
    as (ls & n & c & hs & ->).
  do 3 eexists. reflexivity.
Qed.

(** Every call dispatches exactly one request. *)
Lemma fetchAPI_network (endpoint : string) (options : Options) (w : World) :
  network (world_after (fetchAPI server endpoint options) w)
  = network w ++ [dispatched endpoint options w].
Proof.
  unfold world_after, fetchAPI. run. rewrite apiClient_run.
  fold (dispatched endpoint options w) (intercepted endpoint options w).
  destruct (intercepted_frame endpoint options w) as (ls & n & c & ->).
  destruct (server (dispatched endpoint options w)) as [status body | | msg];
    cbn [settle].
  - destruct ((200 <=? status) && (status <? 300)); [reflexivity |].
    run. cbn [response option_map fst status_is].
    destruct (status =? 401).
    + rewrite clearTokens_run. reflexivity.
    + destruct (truthy body); reflexivity.
  - reflexivity.
  - reflexivity.
Qed.

(** A 2xx response is handed to the caller as it is. *)
Lemma fetchAPI_resolved (endpoint : string) (options : Options) (w : World)
    (status : Z) (body : JSValue) :
  server (dispatched endpoint options w) = Reply status body ->
  200 <= status < 300 ->
  fetchAPI server endpoint options w =
  (body,
   with_network (network (intercepted endpoint options w) ++ [dispatched endpoint options w])
     (intercepted endpoint options w)).
Proof.
  intros Hreply Hstatus. unfold fetchAPI. run. rewrite apiClient_run.
  fold (dispatched endpoint options w) (intercepted endpoint options w).
  rewrite Hreply. cbn [settle].
  assert ((200 <=? status) && (status <? 300) = true) as ->
    by (apply andb_true_intro; split; [apply Z.leb_le | apply Z.ltb_lt]; lia).
  reflexivity.
Qed.

(** C1.  When the request a call dispatched is answered with status 401,
    the three entries of the token store are removed, the session is
    logged out ([isLoggedIn] false, [userData] null), and the caller gets
    [null] in place of a response, with the session-expired message set as
    the error. *)
Theorem fetchAPI_unauthorized (endpoint : string) (options : Options) (w : World) :
  let w' := world_after (fetchAPI server endpoint options) w in
  (exists req body, last (network w') = Some req /\ server req = Reply 401 body) ->
  tokens_cleared w' /\
  isLoggedIn w' = false /\
  userData w' = JNull /\
  result_of (fetchAPI server endpoint options) w = JNull /\
  error w' = JString "Your session has expired or is invalid. Please log in again.".
Proof.
  intros w' (req & body & Hlast & Hreply). subst w'.
  rewrite fetchAPI_network, last_snoc in Hlast. injection Hlast as <-.
  unfold world_after, result_of, fetchAPI. run. rewrite apiClient_run.
  fold (dispatched endpoint options w) (intercepted endpoint options w).
  rewrite Hreply.
  destruct (intercepted_frame endpoint options w) as (ls & n & c & ->).
  cbn [settle]. change ((200 <=? 401) && (401 <? 300)) with false. run.
  cbn [response option_map fst status_is]. change (401 =? 401) with true. run.
  rewrite clearTokens_run. run.
  repeat split; apply cleared_lookup; auto.
Qed.

End FetchProperties.

(** A status check with a live token that the backend no longer accepts. *)
Lemma fetchAPI_unauthorized_witness :
  let server := fun _ : Request => Reply 401 (JObject [("error", JString "invalid_token")]) in
  let w := fresh_world {[ ACCESS_TOKEN_KEY := "A"; EXPIRY_TIMESTAMP_KEY := "1700003600000" ]}
             1700000000000 in
  let w' := world_after (fetchAPI server "/auth/status" no_options) w in
  tokens_cleared w' /\ isLoggedIn w' = false /\ userData w' = JNull /\
  result_of (fetchAPI server "/auth/status" no_options) w = JNull.
Proof.
  intros server w w'.
  destruct (fetchAPI_unauthorized server "/auth/status" no_options w) as (H1 & H2 & H3 & H4 & _).
  - exists (set_header (fetchAPI_config "/auth/status" no_options) "Authorization"
              (JString "Bearer A")), (JObject [("error", JString "invalid_token")]).
    split; reflexivity.
  - repeat split; assumption.
Defined.

(** ** The session status check *)

(** The policy gives the same answer in two worlds with the same store and
    the same clock. *)
Lemma isTokenExpired_same_store (w w2 : World) :
  localStorage w2 = localStorage w ->
  clock w2 = clock w ->
  clock_reads w2 = clock_reads w ->
  isTokenExpired w2 =
  (result_of isTokenExpired w,
   if truthy_timestamp (stored_expiry w)
   then with_clock_reads (S (clock_reads w)) w2 else w2).
Proof.
  intros Hstore Hclock Hreads. unfold result_of. rewrite !isTokenExpired_run.
  unfold stored_expiry, now, result_of, getExpiryTimestamp. run.
  rewrite Hstore, Hclock, Hreads.
  destruct (truthy_string (localStorage w !! EXPIRY_TIMESTAMP_KEY)); [| reflexivity].
  destruct (truthy_timestamp _); reflexivity.
Qed.

Section SessionProperties.

Variable server : Request -> Transport.

Lemma truthy_get_prop (v : JSValue) (k : string) :
  truthy (get_prop v k) = true -> truthy v = true.
Proof. destruct v; simpl; try discriminate; auto. Qed.

(** Without a usable token the check ends where it started: the world it
    leaves differs from the first one in the store, the clock, the console
    and the session cells, and in nothing else. *)
Lemma checkAuthStatus_short_circuit (w : World) :
  truthy_string (localStorage w !! ACCESS_TOKEN_KEY) = false \/
  result_of isTokenExpired w = true ->
  exists n c,
    checkAuthStatus server w =
    (JUndefined,
     with_isAuthLoading false (with_userData JNull (with_isLoggedIn false
       (with_error JNull (with_console c (with_clock_reads n
         (with_localStorage
           (fun ls => delete EXPIRY_TIMESTAMP_KEY
                        (delete REFRESH_TOKEN_KEY (delete ACCESS_TOKEN_KEY ls))) w))))))).
Proof.
  intros Hdead. unfold checkAuthStatus. run.
  destruct (truthy_string (localStorage w !! ACCESS_TOKEN_KEY)) eqn:Htoken; run.
  - destruct Hdead as [Hdead | Hdead]; [discriminate |].
    rewrite (isTokenExpired_same_store w) by reflexivity. rewrite Hdead.
    destruct (truthy_timestamp (stored_expiry w)) eqn:Hexpiry; run.
    + rewrite isTokenExpired_run.
      change (stored_expiry _) with (stored_expiry w). rewrite Hexpiry.
      destruct (num_ge _ _); run; unfold getExpiryTimestamp; run;
        rewrite clearTokens_run; do 2 eexists; same_world.
    + rewrite (isTokenExpired_same_store w) by reflexivity. rewrite Hdead, Hexpiry.
      unfold getExpiryTimestamp; run. rewrite clearTokens_run.
      do 2 eexists; same_world.
  - rewrite isTokenExpired_run.
    change (stored_expiry _) with (stored_expiry w).
    destruct (truthy_timestamp (stored_expiry w)) eqn:Hexpiry; run;
      try (destruct (num_ge _ _); run);
      unfold getExpiryTimestamp; run; rewrite clearTokens_run;
      do 2 eexists; same_world.
Qed.

(** C4.  When the store holds no access token, or the expiry policy
    rejects the stored credential at the time of the check, the check
    clears the store, logs the session out and sends nothing to the
    network.  Otherwise it sends one GET request to [/auth/status], and a
    2xx response whose body carries a user record logs the session in with
    that record. *)
Theorem checkAuthStatus_cases (w : World) :
  let token := localStorage w !! ACCESS_TOKEN_KEY in
  let w' := world_after (checkAuthStatus server) w in
  (truthy_string token = false \/ result_of isTokenExpired w = true ->
   tokens_cleared w' /\ isLoggedIn w' = false /\ userData w' = JNull /\
   network w' = network w) /\
  (truthy_string token = true -> result_of isTokenExpired w = false ->
   exists req,
     network w' = network w ++ [req] /\
     method req = "GET" /\ url req = "/auth/status" /\
     forall status body,
       server req = Reply status body -> 200 <= status < 300 ->
       truthy (get_prop body "user") = true ->
       isLoggedIn w' = true /\ userData w' = get_prop body "user").
Proof.
  intros token w'. subst token w'. split.
  - intros Hdead. unfold world_after.
    destruct (checkAuthStatus_short_circuit w Hdead) as (n & c & ->). run.
    repeat split; apply cleared_lookup; auto.
  - intros Htoken Hfresh. unfold world_after, checkAuthStatus. run.
    rewrite Htoken. run.
    rewrite (isTokenExpired_same_store w) by reflexivity. rewrite Hfresh. run.
    match goal with
    | |- context [fetchAPI server "/auth/status" no_options ?W] => set (w2 := W)
    end.
    assert (network w2 = network w) as Hw2
      by (subst w2; destruct (truthy_timestamp (stored_expiry w)); reflexivity).
    pose proof (fetchAPI_network server "/auth/status" no_options w2) as Hnet.
    pose proof (fetchAPI_resolved server "/auth/status" no_options w2) as Hok.
    destruct (dispatched_frame "/auth/status" no_options w2) as (Hmethod & Hurl & _).
    unfold world_after in Hnet. rewrite Hw2 in Hnet.
    destruct (fetchAPI server "/auth/status" no_options w2) as [data0 w3].
    cbn [snd] in Hnet.
    exists (dispatched "/auth/status" no_options w2).
    split; [| split; [exact Hmethod | split; [exact Hurl |]]].
    + destruct (truthy data0 && truthy (get_prop data0 "user")); run;
        [| rewrite clearTokens_run; run]; exact Hnet.
    + intros status body Hreply Hstatus Huser.
      specialize (Hok status body Hreply Hstatus). injection Hok as -> ->.
      rewrite (truthy_get_prop _ _ Huser), Huser. run. split; reflexivity.
Qed.

(** ** The conversion workflow *)

Lemma handleConvert_run (w : World) :
  handleConvert server w =
  let (data, w1) := fetchAPI server "/convert" (convert_options w) (converting w) in
  (JUndefined,
   with_isConverting false
     (if truthy data && truthy (get_prop data "success") then
        with_playlistName (JString "") (with_playlistUrl (JString "")
          (with_results (get_prop data "data") w1))
      else if truthy data && truthy (get_prop data "error") then
        (if truthy (get_prop data "data")
         then with_results (get_prop data "data") (with_error (get_prop data "error") w1)
         else with_error (get_prop data "error") w1)
      else w1)).
Proof.
  unfold handleConvert, convert_options, postData, converting. run.
  destruct (fetchAPI server "/convert" _ _) as [data0 w1].
  destruct (truthy data0 && truthy (get_prop data0 "success")); [reflexivity |].
  destruct (truthy data0 && truthy (get_prop data0 "error")); [| reflexivity].
  run. destruct (truthy (get_prop data0 "data")); reflexivity.
Qed.

Lemma handleConvert_network (w : World) :
  network (world_after (handleConvert server) w)
  = network w ++ [dispatched "/convert" (convert_options w) (converting w)].
Proof.
  unfold world_after. rewrite handleConvert_run.
  pose proof (fetchAPI_network server "/convert" (convert_options w) (converting w)) as Hnet.
  unfold world_after in Hnet.
  destruct (fetchAPI server "/convert" _ _) as [data0 w1]. cbn [snd] in Hnet |- *.
  destruct (truthy data0 && truthy (get_prop data0 "success")); [exact Hnet |].
  destruct (truthy data0 && truthy (get_prop data0 "error")); [| exact Hnet].
  destruct (truthy (get_prop data0 "data")); exact Hnet.
Qed.

(** C6, as the code has it.  When the conversion request is answered with
    a 2xx response that is flagged unsuccessful: if the response carries both
    an error message and a data payload, the payload becomes the visible
    result and the message the visible error; if it carries no error message,
    nothing of it is kept, and both the result and the error stay empty. *)
Theorem handleConvert_partial_result (w : World) (status : Z) (body : JSValue) :
  let w' := world_after (handleConvert server) w in
  (exists req, last (network w') = Some req /\ server req = Reply status body) ->
  200 <= status < 300 ->
  truthy (get_prop body "success") = false ->
  (truthy (get_prop body "error") = true ->
   truthy (get_prop body "data") = true ->
   results w' = get_prop body "data" /\ error w' = get_prop body "error") /\
  (truthy (get_prop body "error") = false ->
   results w' = JNull /\ error w' = JNull).
Proof.
  intros w' (req & Hlast & Hreply) Hstatus Hsuccess. subst w'.
  rewrite handleConvert_network, last_snoc in Hlast. injection Hlast as <-.
  unfold world_after. rewrite handleConvert_run.
  rewrite (fetchAPI_resolved server _ _ _ status body Hreply Hstatus).
  rewrite Hsuccess, andb_false_r. split.
  - intros Herror Hdata.
    rewrite Herror, Hdata, (truthy_get_prop _ _ Herror). split; reflexivity.
  - intros Herror. rewrite Herror, andb_false_r.
    destruct (intercepted_frame "/convert" (convert_options w) (converting w))
      as (ls & n & c & ->).
    split; reflexivity.
Qed.

(** C10.  With an empty (falsy) playlist name, the one request the
    submission dispatches is a POST to [/convert] whose body carries
    [playlist_name] equal to ['Converted YouTube Playlist']. *)
Theorem handleConvert_default_name (w : World) :
  truthy (playlistName w) = false ->
  exists req,
    network (world_after (handleConvert server) w) = network w ++ [req] /\
    method req = "POST" /\
    url req = "/convert" /\
    data req = JObject [("playlist_url", playlistUrl w);
                        ("playlist_name", JString "Converted YouTube Playlist")].
Proof.
  intros Hname. exists (dispatched "/convert" (convert_options w) (converting w)).
  destruct (dispatched_frame "/convert" (convert_options w) (converting w))
    as (Hmethod & Hurl & Hdata).
  split; [apply handleConvert_network |].
  split; [exact Hmethod | split; [exact Hurl |]].
  rewrite Hdata. unfold convert_options, postData, js_or. cbn [opt_body].
  rewrite Hname. reflexivity.
Qed.
End SessionProperties.

(** C6, as stated, fails on the response of the specification's scenario: it
    is flagged unsuccessful and carries a payload but no error message, and
    the payload is dropped. *)
Lemma handleConvert_partial_counterexample :
  let payload :=
    JObject [("unmatched_tracks", JArray [JString "Song A"]); ("api_errors", JArray [])] in
  let server := fun _ : Request => Reply 200 (JObject [("success", JBool false); ("data", payload)]) in
  let w := with_playlistUrl (JString "https://music.youtube.com/playlist?list=PL1")
             (with_isLoggedIn true
                (fresh_world {[ ACCESS_TOKEN_KEY := "A"; EXPIRY_TIMESTAMP_KEY := "1700003600000" ]}
                   1700000000000)) in
  let w' := world_after (handleConvert server) w in
  last (network w') =
    Some {| method := "POST"; url := "/convert";
            data := JObject [("playlist_url", JString "https://music.youtube.com/playlist?list=PL1");
                             ("playlist_name", JString "Converted YouTube Playlist")];
            headers := [("Authorization", JString "Bearer A")] |} /\
  results w' = JNull /\
  results w' <> payload /\
  error w' = JNull.
Proof. vm_compute. repeat split. discriminate. Qed.

(** A session with a live token and an unsuccessful conversion that reports
    its error. *)
Lemma handleConvert_partial_result_witness :
  let payload := JObject [("not_found_tracks", JArray [JString "Song A"])] in
  let body :=
    JObject [("success", JBool false); ("error", JString "No tracks matched.");
             ("data", payload)] in
  let server := fun _ : Request => Reply 200 body in
  let w := with_isLoggedIn true
             (fresh_world {[ ACCESS_TOKEN_KEY := "A"; EXPIRY_TIMESTAMP_KEY := "1700003600000" ]}
                1700000000000) in
  let w' := world_after (handleConvert server) w in
  results w' = payload /\ error w' = JString "No tracks matched.".
Proof.
  intros payload body server w w'.
  refine (proj1 (handleConvert_partial_result server w 200 body _ _ _) _ _).
  - exists (set_header (fetchAPI_config "/convert" (convert_options w)) "Authorization"
              (JString "Bearer A")).
    split; reflexivity.
  - lia.
  - reflexivity.
  - reflexivity.
  - reflexivity.
Defined.

Lemma handleConvert_default_name_witness :
  let server := fun _ : Request => NoReply in
  let w := with_playlistUrl (JString "https://music.youtube.com/playlist?list=PL1")
             (fresh_world ∅ 1700000000000) in
  exists req,
    network (world_after (handleConvert server) w) = [req] /\
    data req = JObject [("playlist_url", JString "https://music.youtube.com/playlist?list=PL1");
                        ("playlist_name", JString "Converted YouTube Playlist")].
Proof.
  intros server w.
  destruct (handleConvert_default_name server w eq_refl) as (req & Hnet & _ & _ & Hdata).
  exists req. split; [exact Hnet | exact Hdata].
Defined.

(** The two scenarios of the specification: an expired token, and a live
    token that the backend recognises as user [u1]. *)
Lemma checkAuthStatus_cases_witness :
  let server := fun _ : Request => Reply 200 (JObject [("user", JObject [("id", JString "u1")])]) in
  let expired :=
    fresh_world {[ ACCESS_TOKEN_KEY := "A"; EXPIRY_TIMESTAMP_KEY := "1699996400000" ]}
      1700000000000 in
  let live :=
    fresh_world {[ ACCESS_TOKEN_KEY := "A"; EXPIRY_TIMESTAMP_KEY := "1700003600000" ]}
      1700000000000 in
  (isLoggedIn (world_after (checkAuthStatus server) expired) = false /\
   network (world_after (checkAuthStatus server) expired) = []) /\
  (isLoggedIn (world_after (checkAuthStatus server) live) = true /\
   userData (world_after (checkAuthStatus server) live) = JObject [("id", JString "u1")]).
Proof.
  intros server expired live. split.
  - destruct (proj1 (checkAuthStatus_cases server expired) (or_intror eq_refl))
      as (_ & Hout & _ & Hnet).
    split; [exact Hout | exact Hnet].
  - destruct (proj2 (checkAuthStatus_cases server live) eq_refl eq_refl)
      as (req & _ & _ & _ & Hin).
    apply (Hin 200 (JObject [("user", JObject [("id", JString "u1")])]) eq_refl).
    + lia.
    + reflexivity.
Defined.

(** ** The token store, read back *)

Lemma clear_store_lookup (ls : gmap string string) (k : string) :
  clear_store ls !! k = if decide (is_token_key k) then None else ls !! k.
Proof.
  unfold clear_store, is_token_key.
  destruct (decide _) as [Hk | Hk].
  - apply cleared_lookup. exact Hk.
  - rewrite !lookup_delete_ne; [reflexivity | |  |]; intros <-; apply Hk; auto.
Qed.

Lemma clear_store_idempotent (ls : gmap string string) :
  clear_store (clear_store ls) = clear_store ls.
Proof.
  apply map_eq. intros k. rewrite !clear_store_lookup.
  destruct (decide _); reflexivity.
Qed.

Lemma store_with_lookup (a : string) (r : option string) (x : number)
    (ls : gmap string string) (k : string) :
  store_with a r x ls !! k =
  if decide (k = EXPIRY_TIMESTAMP_KEY) then Some (toString x)
  else if decide (k = REFRESH_TOKEN_KEY)
       then (if truthy_string r then Some (String_of r) else None)
       else if decide (k = ACCESS_TOKEN_KEY) then Some a else ls !! k.
Proof.
  unfold store_with.
  destruct (decide (k = EXPIRY_TIMESTAMP_KEY)) as [-> | He].
  - apply lookup_insert_eq.
  - rewrite lookup_insert_ne by congruence.
    destruct (decide (k = REFRESH_TOKEN_KEY)) as [-> | Hr].
    + destruct (truthy_string r); [apply lookup_insert_eq | apply lookup_delete_eq].
    + assert (((if truthy_string r
                then <[REFRESH_TOKEN_KEY := String_of r]>
                else delete REFRESH_TOKEN_KEY) (<[ACCESS_TOKEN_KEY := a]> ls)) !! k
              = <[ACCESS_TOKEN_KEY := a]> ls !! k) as ->.
      { destruct (truthy_string r);
          [rewrite lookup_insert_ne | rewrite lookup_delete_ne]; congruence. }
      destruct (decide (k = ACCESS_TOKEN_KEY)) as [-> | Ha].
      * apply lookup_insert_eq.
      * rewrite lookup_insert_ne by congruence. reflexivity.
Qed.

Lemma storeTokens_run (a e : string) (r : option string) (w : World) :
  a <> EmptyString -> e <> EmptyString ->
  storeTokens (Some a) r (Some e) w =
  (JUndefined,
   with_console (console w ++ [(LevelLog, "Tokens stored. Expiry:")])
     (with_localStorage
        (store_with a r (num_add (Int (now w)) (num_mul (parseInt e) (Int 1000))))
        (with_clock_reads (S (clock_reads w)) w))).
Proof.
  intros Ha He. unfold storeTokens, store_with, now.
  rewrite !truthy_string_Some by assumption. run. cbn [String_of].
  destruct (truthy_string r); same_world.
Qed.

(** X1.  What a complete save stores can be read back: the access token,
    the refresh token when one was given (none otherwise), and, for a
    lifetime of [n] seconds whose expiry is computed exactly, as expiry the
    time of the save plus [n * 1000] ms; no other entry of [localStorage] is
    touched. *)
Theorem storeTokens_read_back (a e : string) (r : option string) (w : World) :
  a <> EmptyString -> e <> EmptyString ->
  let w' := world_after (storeTokens (Some a) r (Some e)) w in
  result_of getAccessToken w' = Some a /\
  result_of getRefreshToken w' = (if truthy_string r then r else None) /\
  (forall n : Z,
     parseInt e = Int n -> exact_expiry (now w) n ->
     result_of getExpiryTimestamp w' = Some (Int (now w + n * 1000))) /\
  (forall k, ~ is_token_key k -> localStorage w' !! k = localStorage w !! k).
Proof.
  intros Ha He w'. subst w'. unfold world_after.
  rewrite storeTokens_run by assumption. cbn [snd].
  unfold getExpiryTimestamp. run. rewrite !store_with_lookup.
  destruct token_keys_distinct as (Har & Hae & Hre).
  repeat (destruct (decide _); try congruence).
  split; [reflexivity | split; [| split]].
  - destruct r as [[| c s] |]; reflexivity.
  - intros z Hz _. rewrite Hz. cbn [num_mul num_add].
    rewrite toString_nonempty. cbn [String_of]. rewrite parseInt_toString. reflexivity.
  - intros k Hk. rewrite store_with_lookup. unfold is_token_key in Hk.
    repeat (destruct (decide _); [exfalso; apply Hk; auto |]). reflexivity.
Qed.

Lemma storeTokens_read_back_witness :
  let w := fresh_world {[ "theme" := "dark" ]} 1700000000000 in
  let w' := world_after (storeTokens (Some "A") (Some "R") (Some "3600")) w in
  result_of getAccessToken w' = Some "A" /\
  result_of getRefreshToken w' = Some "R" /\
  result_of getExpiryTimestamp w' = Some (Int (now w + 3600 * 1000)) /\
  localStorage w' !! "theme" = Some "dark".
Proof.
  intros w w'.
  destruct (storeTokens_read_back "A" "3600" (Some "R") w
              ltac:(discriminate) ltac:(discriminate)) as (H1 & H2 & H3 & H4).
  assert (exact_expiry (now w) 3600) as Hexact
    by (repeat split; vm_compute; discriminate).
  split; [exact H1 | split; [exact H2 | split; [exact (H3 3600 eq_refl Hexact) |]]].
  rewrite H4; [reflexivity |].
  intros [Hk | [Hk | Hk]]; discriminate Hk.
Defined.

(** ** A stored token and the expiry policy *)

Lemma isTokenExpired_after_store (a e : string) (r : option string) (w : World) (m : nat) :
  a <> EmptyString -> e <> EmptyString ->
  let x := num_add (Int (now w)) (num_mul (parseInt e) (Int 1000)) in
  result_of isTokenExpired
    (with_clock_reads m (world_after (storeTokens (Some a) r (Some e)) w))
  = match x with
    | Int z => if z =? 0 then true else z - 60000 <=? clock w m
    | NaN => true
    end.
Proof.
  intros Ha He x. unfold world_after, result_of.
  rewrite storeTokens_run by assumption. fold x. rewrite isTokenExpired_run.
  unfold stored_expiry, now, result_of, getExpiryTimestamp. run.
  rewrite store_with_lookup. destruct (decide _) as [_ | Hne]; [| congruence].
  rewrite toString_nonempty. cbn [String_of].
  destruct x as [z |].
  - rewrite parseInt_toString. cbn [truthy_timestamp truthy_number].
    destruct (z =? 0); reflexivity.
  - reflexivity.
Qed.

(** X2.  The validity window of a saved token.  After a save at time
    [issued] with a lifetime that reads as [n] seconds, the policy, asked at
    any later reading [checked] of the clock, rejects the token exactly when
    [checked >= issued + n * 1000 - 60000].  This is for an expiry that is
    computed exactly and is not zero (as for any clock running since the
    epoch), with [checked] and the bound it is compared with safe integers
    too. *)
Theorem storeTokens_validity_window (a e : string) (r : option string) (n : Z)
    (w : World) (m : nat) :
  a <> EmptyString -> e <> EmptyString -> parseInt e = Int n ->
  exact_expiry (now w) n ->
  safe_integer (now w + n * 1000 - 60000) -> safe_integer (clock w m) ->
  now w + n * 1000 <> 0 ->
  let w' := with_clock_reads m (world_after (storeTokens (Some a) r (Some e)) w) in
  result_of isTokenExpired w' = (now w + n * 1000 - 60000 <=? clock w m).
Proof.
  intros Ha He Hn _ _ _ Hnz w'. subst w'.
  rewrite isTokenExpired_after_store by assumption. rewrite Hn.
  cbn [num_mul num_add]. destruct (Z.eqb_spec (now w + n * 1000) 0); [contradiction |].
  reflexivity.
Qed.

Lemma storeTokens_validity_window_witness :
  let w := fresh_world ∅ 1700000000000 in
  let w' := with_clock_reads 5 (world_after (storeTokens (Some "A") None (Some "3600")) w) in
  result_of isTokenExpired w' = false.
Proof.
  intros w w'.
  assert (exact_expiry (now w) 3600) as Hexact
    by (repeat split; vm_compute; discriminate).
  assert (safe_integer (now w + 3600 * 1000 - 60000)) as Hbound
    by (split; vm_compute; discriminate).
  assert (safe_integer (clock w 5)) as Hchecked
    by (split; vm_compute; discriminate).
  exact (storeTokens_validity_window "A" "3600" None 3600 w 5
           ltac:(discriminate) ltac:(discriminate) eq_refl Hexact Hbound Hchecked
           ltac:(discriminate)).
Defined.

(** X3.  A token saved with a lifetime of at most 60 seconds, or with a
    lifetime that does not read as a number, is never accepted: on a clock
    that does not run backwards the policy rejects it at every reading after
    the save. *)
Theorem storeTokens_short_lifetime_is_dead (a e : string) (r : option string)
    (w : World) (m : nat) :
  a <> EmptyString -> e <> EmptyString ->
  clock_monotone w -> (clock_reads w <= m)%nat ->
  (parseInt e = NaN \/ exists n, parseInt e = Int n /\ n <= 60) ->
  let w' := with_clock_reads m (world_after (storeTokens (Some a) r (Some e)) w) in
  result_of isTokenExpired w' = true.
Proof.
  intros Ha He Hclock Hm Hshort w'. subst w'.
  rewrite isTokenExpired_after_store by assumption.
  destruct Hshort as [-> | (n & -> & Hn)]; [reflexivity |].
  cbn [num_mul num_add]. destruct (_ =? 0); [reflexivity |].
  apply Z.leb_le. specialize (Hclock _ _ Hm). unfold now. lia.
Qed.

Lemma storeTokens_short_lifetime_is_dead_witness :
  let w := fresh_world ∅ 1700000000000 in
  result_of isTokenExpired
    (with_clock_reads 1 (world_after (storeTokens (Some "A") None (Some "60")) w)) = true /\
  result_of isTokenExpired
    (with_clock_reads 1 (world_after (storeTokens (Some "A") None (Some "soon")) w)) = true.
Proof.
  intros w. split.
  - apply (storeTokens_short_lifetime_is_dead "A" "60" None w 1);
      [discriminate | discriminate | apply fresh_world_clock_monotone | simpl; lia |].
    right. exists 60. split; [reflexivity | lia].
  - apply (storeTokens_short_lifetime_is_dead "A" "soon" None w 1);
      [discriminate | discriminate | apply fresh_world_clock_monotone | simpl; lia |].
    left. reflexivity.
Defined.

(** ** The OAuth callback, all cases *)

Lemma replace_underscores_clean (s : string) :
  forall c, c = "_"%char -> ~ In c (list_ascii_of_string (replace_underscores s)).
Proof.
  intros c ->. induction s as [| c s IH]; simpl; [tauto |].
  destruct (Ascii.eqb_spec c "_") as [-> | Hc].
  - simpl. intros [H | H]; [discriminate | tauto].
  - assert (replace_underscores (String c s) = String c (replace_underscores s)) as Heq.
    { simpl. destruct c as [[] [] [] [] [] [] [] []]; try reflexivity. congruence. }
    simpl in Heq. rewrite Heq. simpl. intros [H | H]; [congruence | tauto].
Qed.

Section CallbackCases.

Variable URLSearchParams : string -> list (string * string).

(** X4.  An [error] parameter wins over everything else in the fragment,
    tokens included: the three entries of the token store are removed,
    nothing is stored, and the handler navigates home once, carrying
    ["Login failed: <reason>."] where the reason is the parameter with every
    underscore replaced by a space. *)
Theorem AuthCallback_error_discards_tokens (hash reason : string) (w : World) :
  let params := URLSearchParams (substring_1 hash) in
  params_get params "error" = Some reason -> reason <> EmptyString ->
  let w' := world_after (AuthCallback URLSearchParams hash) w in
  localStorage w' = clear_store (localStorage w) /\
  tokens_cleared w' /\
  authError w' = JString ("Login failed: " +:+ replace_underscores reason
                            +:+ ". Please try again.") /\
  navigations w' = navigations w ++
    [("/", JObject [("state", JObject [("authError",
             JString ("Login failed: " +:+ replace_underscores reason +:+ "."))])])] /\
  ~ In "_"%char (list_ascii_of_string (replace_underscores reason)).
Proof.
  intros params Herror Hreason w'. subst w'.
  unfold AuthCallback. run. fold params. rewrite Herror.
  rewrite truthy_string_Some by assumption. run. rewrite clearTokens_run. run.
  cbn [String_of]. fold (clear_store (localStorage w)).
  split; [reflexivity | split; [| split; [reflexivity | split; [reflexivity |]]]].
  - repeat split; apply cleared_lookup; auto.
  - apply replace_underscores_clean. reflexivity.
Qed.

(** X5.  Whatever the fragment, the callback handler sends nothing to the
    network, sets none of the eight state cells of [MainApp], and navigates
    to the home route exactly once. *)
Theorem AuthCallback_only_redirects (hash : string) (w : World) :
  let w' := world_after (AuthCallback URLSearchParams hash) w in
  network w' = network w /\
  (exists state, navigations w' = navigations w ++ [("/", state)]) /\
  isLoggedIn w' = isLoggedIn w /\ userData w' = userData w /\
  playlistUrl w' = playlistUrl w /\ playlistName w' = playlistName w /\
  isAuthLoading w' = isAuthLoading w /\ isConverting w' = isConverting w /\
  error w' = error w /\ results w' = results w.
Proof.
  intros w'. subst w'. unfold AuthCallback. run.
  set (params := URLSearchParams (substring_1 hash)).
  destruct (truthy_string (params_get params "error")); run.
  - rewrite clearTokens_run. run. repeat split. eexists. reflexivity.
  - destruct (truthy_string (params_get params "access_token")
              && truthy_string (params_get params "expires_in")) eqn:Htokens; run.
    + apply andb_prop in Htokens as [Ha He].
      destruct (params_get params "access_token") as [[| c a] |]; try discriminate.
      destruct (params_get params "expires_in") as [[| c' e] |]; try discriminate.
      rewrite storeTokens_run by discriminate. run.
      repeat split. eexists. reflexivity.
    + repeat split. eexists. reflexivity.
Qed.

End CallbackCases.

Lemma AuthCallback_error_discards_tokens_witness :
  let w := fresh_world {[ ACCESS_TOKEN_KEY := "old"; EXPIRY_TIMESTAMP_KEY := "1700003600000" ]}
             1700000000000 in
  let w' := world_after
              (AuthCallback form_pairs "#error=access_denied&access_token=A&expires_in=3600") w in
  tokens_cleared w' /\
  navigations w' =
    [("/", JObject [("state", JObject [("authError",
             JString "Login failed: access denied.")])])].
Proof.
  intros w w'.
  destruct (AuthCallback_error_discards_tokens form_pairs
              "#error=access_denied&access_token=A&expires_in=3600" "access_denied" w
              eq_refl ltac:(discriminate)) as (_ & Hclear & _ & Hnav & _).
  split; [exact Hclear | exact Hnav].
Defined.

Section CallbackThenRequest.

Variable URLSearchParams : string -> list (string * string).
Variable server : Request -> Transport.

(** X6.  From the callback to the first request.  After a callback that
    delivered an access token with a lifetime of [n] seconds, its expiry
    computed exactly, a request made while the clock (running since the
    epoch) reads less than the time of the callback plus [n * 1000 - 60000]
    ms goes out with the header [Authorization: Bearer <access token>]. *)
Theorem AuthCallback_then_request_is_authorized
    (hash accessToken expiresIn : string) (n : Z) (config : Request) (w : World) :
  let params := URLSearchParams (substring_1 hash) in
  truthy_string (params_get params "error") = false ->
  params_get params "access_token" = Some accessToken -> accessToken <> EmptyString ->
  params_get params "expires_in" = Some expiresIn -> expiresIn <> EmptyString ->
  parseInt expiresIn = Int n -> exact_expiry (now w) n ->
  let w1 := world_after (AuthCallback URLSearchParams hash) w in
  0 <= now w1 -> now w1 < now w + n * 1000 - 60000 ->
  network (world_after (apiClient server config) w1)
  = network w ++ [set_header config "Authorization" (JString ("Bearer " +:+ accessToken))].
Proof.
  intros params Herror Haccess Ha Hexpires He Hn _ w1 Hepoch Hbefore.
  assert (exists c,
             w1 = with_navigations (navigations w ++ [("/", JUndefined)])
                    (with_console c
                       (with_localStorage
                          (store_with accessToken (params_get params "refresh_token")
                             (Int (now w + n * 1000)))
                          (with_clock_reads (S (clock_reads w)) w)))) as (c & Hw1).
  { subst w1. unfold world_after, AuthCallback. run. fold params.
    rewrite Herror, Haccess, Hexpires. rewrite !truthy_string_Some by assumption. run.
    rewrite storeTokens_run by assumption. rewrite Hn. cbn [num_mul num_add]. run.
    eexists. unfold now. same_world. }
  assert (localStorage w1 !! ACCESS_TOKEN_KEY = Some accessToken) as Htoken.
  { rewrite Hw1. run. rewrite store_with_lookup.
    destruct token_keys_distinct as (Har & Hae & Hre).
    repeat (destruct (decide _); try congruence). }
  assert (result_of isTokenExpired w1 = false) as Hfresh.
  { apply isTokenExpired_false_iff. exists (now w + n * 1000).
    split; [| split; [lia | exact Hbefore]].
    unfold recorded_expiry, stored_expiry, result_of, getExpiryTimestamp. rewrite Hw1. run.
    rewrite store_with_lookup. destruct (decide _) as [_ | Hne]; [| congruence].
    rewrite toString_nonempty. cbn [String_of]. rewrite parseInt_toString. reflexivity. }
  unfold world_after. rewrite apiClient_run. unfold world_after, result_of.
  rewrite request_interceptor_fresh
    by (try exact Hfresh; rewrite Htoken; apply truthy_string_Some; assumption).
  rewrite Htoken. run. rewrite Hw1. reflexivity.
Qed.

End CallbackThenRequest.

Lemma AuthCallback_then_request_is_authorized_witness :
  let w := fresh_world ∅ 1700000000000 in
  let w1 := world_after (AuthCallback form_pairs "#access_token=A&expires_in=3600") w in
  let config := fetchAPI_config "/auth/status" no_options in
  network (world_after (apiClient (fun _ => NoReply) config) w1)
  = [set_header config "Authorization" (JString "Bearer A")].
Proof.
  intros w w1 config.
  exact (AuthCallback_then_request_is_authorized form_pairs (fun _ => NoReply)
           "#access_token=A&expires_in=3600" "A" "3600" 3600 config w
           eq_refl eq_refl ltac:(discriminate) eq_refl ltac:(discriminate) eq_refl
           ltac:(repeat split; vm_compute; discriminate)
           ltac:(vm_compute; discriminate) ltac:(vm_compute; reflexivity)).
Defined.

(** ** The interceptor and [fetchAPI], all cases *)

Lemma request_interceptor_outcome (config : Request) (w : World) :
  exists ls n c config',
    request_interceptor config w
    = (config', with_console c (with_clock_reads n (with_localStorage (fun _ => ls) w))) /\
    (clock_reads w <= n <= clock_reads w + 2)%nat /\
    ((ls = localStorage w /\ config' = config /\
      (truthy_string (localStorage w !! ACCESS_TOKEN_KEY) = false \/
       result_of isTokenExpired w = true)) \/
     (ls = clear_store (localStorage w) /\ config' = config /\
      truthy_string (localStorage w !! ACCESS_TOKEN_KEY) = true /\
      result_of isTokenExpired w = true) \/
     (ls = localStorage w /\
      config' = set_header config "Authorization"
                  (JString ("Bearer " +:+ String_of (localStorage w !! ACCESS_TOKEN_KEY))) /\
      truthy_string (localStorage w !! ACCESS_TOKEN_KEY) = true /\
      result_of isTokenExpired w = false)).
Proof.
  unfold result_of. rewrite isTokenExpired_run.
  unfold request_interceptor. run.
  destruct (truthy_string (localStorage w !! ACCESS_TOKEN_KEY)) eqn:Htoken; run.
  - rewrite isTokenExpired_run.
    destruct (truthy_timestamp (stored_expiry w)) eqn:Hexpiry; run.
    + destruct (num_ge (Int (now w)) _) eqn:Hge; run.
      * rewrite isTokenExpired_run.
        change (stored_expiry _) with (stored_expiry w). rewrite Hexpiry.
        destruct (num_ge (Int (now (with_clock_reads _ w))) _); run.
        -- rewrite clearTokens_run. run.
           exists (clear_store (localStorage w)), (S (S (clock_reads w))).
           do 2 eexists. split; [same_world | split; [lia |]].
           right. left. repeat split.
        -- exists (localStorage w), (S (S (clock_reads w))).
           do 2 eexists. split; [same_world | split; [lia |]].
           left. repeat split. right. reflexivity.
      * exists (localStorage w), (S (clock_reads w)).
        do 2 eexists. split; [same_world | split; [lia |]].
        right. right. repeat split.
    + rewrite isTokenExpired_run, Hexpiry. run. rewrite clearTokens_run. run.
      exists (clear_store (localStorage w)), (clock_reads w).
      do 2 eexists. split; [same_world | split; [lia |]].
      right. left. repeat split.
  - exists (localStorage w), (clock_reads w).
    do 2 eexists. split; [same_world | split; [lia |]].
    left. repeat split. left. reflexivity.
Qed.

(** X7.  On any clock, running backwards or not, the interceptor attaches a
    token only when the store holds one and the policy accepts it; an absent
    or rejected token leaves the request exactly as the caller built it.  The
    store comes out unchanged or with all three entries removed, and it is
    removed only for a present token that the policy rejects. *)
Theorem request_interceptor_never_sends_a_rejected_token (config : Request) (w : World) :
  let token := localStorage w !! ACCESS_TOKEN_KEY in
  let config' := result_of (request_interceptor config) w in
  let w' := world_after (request_interceptor config) w in
  (truthy_string token = false \/ result_of isTokenExpired w = true -> config' = config) /\
  (config' = config \/
   config' = set_header config "Authorization" (JString ("Bearer " +:+ String_of token))) /\
  (localStorage w' = localStorage w \/
   (localStorage w' = clear_store (localStorage w) /\
    truthy_string token = true /\ result_of isTokenExpired w = true)).
Proof.
  intros token config' w'. subst token config' w'.
  destruct (request_interceptor_outcome config w)
    as (ls & n & c & cfg & Hrun & _ &
        [(-> & -> & _) | [(-> & -> & Ht & He) | (-> & -> & Ht & He)]]);
    unfold world_after, result_of at 2 3 4; rewrite Hrun; run.
  - repeat split; auto.
  - repeat split; auto.
  - split; [| split; auto].
    unfold result_of in He. intros [H | H]; congruence.
Qed.

Lemma request_interceptor_never_sends_a_rejected_token_witness :
  let w := fresh_world {[ ACCESS_TOKEN_KEY := "A" ]} 1700000000000 in
  let config := fetchAPI_config "/convert" no_options in
  result_of (request_interceptor config) w = config.
Proof.
  intros w config.
  exact (proj1 (request_interceptor_never_sends_a_rejected_token config w)
           (or_intror eq_refl)).
Defined.

Section FetchCases.

Variable server : Request -> Transport.

Lemma fetchAPI_plain_failure_run (endpoint : string) (options : Options) (w : World) :
  let req := dispatched endpoint options w in
  let wi := intercepted endpoint options w in
  plain_failure (server req) = true ->
  fetchAPI server endpoint options w =
  (JNull,
   with_isConverting false (with_isAuthLoading false
     (with_error (failure_message (server req))
        (with_console (console wi ++ [(LevelError, "Axios API Error:")])
           (with_network (network wi ++ [req]) wi))))).
Proof.
  intros req wi Hplain. unfold fetchAPI. run. rewrite apiClient_run.
  fold (dispatched endpoint options w) (intercepted endpoint options w). fold req wi.
  destruct (server req) as [status body | | msg]; cbn [settle failure_message].
  - cbn [plain_failure] in Hplain. apply andb_prop in Hplain as [H2xx H401].
    apply negb_true_iff in H2xx, H401. rewrite H2xx. run.
    cbn [response option_map fst status_is status_text request]. rewrite H401.
    destruct (truthy body); reflexivity.
  - reflexivity.
  - reflexivity.
Qed.

(** X8.  A response that is neither 2xx nor 401 and has a truthy body is
    shown by its own words: the body's [message] when it has one, else its
    [error], else ["Request failed with status <status>"].  The caller gets
    [null]; the session is not touched. *)
Theorem fetchAPI_prefers_backend_message (endpoint : string) (options : Options)
    (w : World) (status : Z) (body : JSValue) :
  server (dispatched endpoint options w) = Reply status body ->
  ~ 200 <= status < 300 -> status <> 401 -> truthy body = true ->
  let w' := world_after (fetchAPI server endpoint options) w in
  result_of (fetchAPI server endpoint options) w = JNull /\
  (truthy (get_prop body "message") = true -> error w' = get_prop body "message") /\
  (truthy (get_prop body "message") = false -> truthy (get_prop body "error") = true ->
   error w' = get_prop body "error") /\
  (truthy (get_prop body "message") = false -> truthy (get_prop body "error") = false ->
   error w' = JString ("Request failed with status " +:+ toString (Int status))) /\
  isLoggedIn w' = isLoggedIn w /\ userData w' = userData w.
Proof.
  intros Hreply H2xx H401 Hbody w'. subst w'. unfold world_after, result_of.
  rewrite fetchAPI_plain_failure_run.
  2:{ rewrite Hreply. cbn [plain_failure].
      apply andb_true_intro. split; apply negb_true_iff.
      - apply andb_false_iff.
        destruct (Z.leb_spec 200 status); [right; apply Z.ltb_ge; lia | left; reflexivity].
      - apply Z.eqb_neq. exact H401. }
  rewrite Hreply. cbn [failure_message]. rewrite Hbody.
  destruct (intercepted_frame endpoint options w) as (ls & n & c & ->). run.
  unfold js_or.
  split; [reflexivity | split; [| split; [| split; [| split; reflexivity]]]].
  - intros Hm. rewrite Hm. cbv iota. rewrite Hm. reflexivity.
  - intros Hm He. rewrite Hm. cbv iota. rewrite He. reflexivity.
  - intros Hm He. rewrite Hm. cbv iota. rewrite He. reflexivity.
Qed.

(** X9.  The message for a response never received is also the message for
    a response that was received with a status that is neither 2xx nor 401
    and an empty (falsy) body; a failure before the request was sent is shown
    by the message of its exception. *)
Theorem fetchAPI_no_response_message (endpoint : string) (options : Options) (w : World) :
  let t := server (dispatched endpoint options w) in
  let w' := world_after (fetchAPI server endpoint options) w in
  let unreachable :=
    JString "No response received from server. Check network or server status." in
  (t = NoReply -> error w' = unreachable) /\
  (forall status body,
     t = Reply status body -> ~ 200 <= status < 300 -> status <> 401 ->
     truthy body = false -> error w' = unreachable) /\
  (forall msg, t = SetupFailure msg -> error w' = JString msg).
Proof.
  intros t w' unreachable. subst t w' unreachable. unfold world_after.
  split; [| split].
  - intros Ht. rewrite fetchAPI_plain_failure_run by (rewrite Ht; reflexivity).
    rewrite Ht. reflexivity.
  - intros status body Ht H2xx H401 Hbody.
    rewrite fetchAPI_plain_failure_run.
    + rewrite Ht. cbn [failure_message]. rewrite Hbody. reflexivity.
    + rewrite Ht. cbn [plain_failure].
      apply andb_true_intro. split; apply negb_true_iff.
      * apply andb_false_iff.
        destruct (Z.leb_spec 200 status); [right; apply Z.ltb_ge; lia | left; reflexivity].
      * apply Z.eqb_neq. exact H401.
  - intros msg Ht. rewrite fetchAPI_plain_failure_run by (rewrite Ht; reflexivity).
    rewrite Ht. reflexivity.
Qed.

End FetchCases.

Lemma fetchAPI_prefers_backend_message_witness :
  let server := fun _ : Request =>
    Reply 500 (JObject [("error", JString "upstream"); ("message", JString "Spotify is down")]) in
  error (world_after (fetchAPI server "/convert" no_options) (fresh_world ∅ 1700000000000))
  = JString "Spotify is down".
Proof.
  intros server.
  refine (proj1 (proj2 (fetchAPI_prefers_backend_message server "/convert" no_options
                          (fresh_world ∅ 1700000000000) 500 _ eq_refl _ _ eq_refl)) eq_refl);
    [lia | discriminate].
Defined.

Lemma fetchAPI_no_response_message_witness :
  let server := fun _ : Request => Reply 502 (JString "") in
  error (world_after (fetchAPI server "/convert" no_options) (fresh_world ∅ 1700000000000))
  = JString "No response received from server. Check network or server status.".
Proof.
  intros server.
  refine (proj1 (proj2 (fetchAPI_no_response_message server "/convert" no_options
                          (fresh_world ∅ 1700000000000))) 502 (JString "") eq_refl _ _ eq_refl);
    [lia | discriminate].
Defined.

Section FetchFrame.

Variable server : Request -> Transport.

Lemma fetchAPI_401_run (endpoint : string) (options : Options) (w : World) (body : JSValue) :
  let req := dispatched endpoint options w in
  let wi := intercepted endpoint options w in
  server req = Reply 401 body ->
  exists c,
    fetchAPI server endpoint options w =
    (JNull,
     with_isConverting false (with_isAuthLoading false
       (with_error (JString "Your session has expired or is invalid. Please log in again.")
          (with_userData JNull (with_isLoggedIn false
             (with_console c
                (with_localStorage clear_store
                   (with_network (network wi ++ [req]) wi)))))))).
Proof.
  intros req wi Hreply. unfold fetchAPI. run. rewrite apiClient_run.
  fold (dispatched endpoint options w) (intercepted endpoint options w). fold req wi.
  rewrite Hreply. cbn [settle]. change ((200 <=? 401) && (401 <? 300)) with false. run.
  cbn [response option_map fst status_is]. change (401 =? 401) with true. run.
  rewrite clearTokens_run. run. eexists. unfold clear_store. same_world.
Qed.

Lemma intercepted_store (endpoint : string) (options : Options) (w : World) :
  localStorage (intercepted endpoint options w) = localStorage w \/
  localStorage (intercepted endpoint options w) = clear_store (localStorage w).
Proof.
  unfold intercepted, world_after.
  destruct (request_interceptor_outcome (fetchAPI_config endpoint options) w)
    as (ls & n & c & cfg & -> & _ & [(-> & _) | [(-> & _) | (-> & _)]]); auto.
Qed.

(** The three ways a call to [fetchAPI] can end. *)
Lemma fetchAPI_ends (endpoint : string) (options : Options) (w : World) :
  let req := dispatched endpoint options w in
  let wi := intercepted endpoint options w in
  (exists status body,
      server req = Reply status body /\ 200 <= status < 300 /\
      fetchAPI server endpoint options w
      = (body, with_network (network wi ++ [req]) wi)) \/
  (exists body c,
      server req = Reply 401 body /\
      fetchAPI server endpoint options w
      = (JNull,
         with_isConverting false (with_isAuthLoading false
           (with_error (JString "Your session has expired or is invalid. Please log in again.")
              (with_userData JNull (with_isLoggedIn false
                 (with_console c
                    (with_localStorage clear_store
                       (with_network (network wi ++ [req]) wi))))))))) \/
  (plain_failure (server req) = true /\
   fetchAPI server endpoint options w
   = (JNull,
      with_isConverting false (with_isAuthLoading false
        (with_error (failure_message (server req))
           (with_console (console wi ++ [(LevelError, "Axios API Error:")])
              (with_network (network wi ++ [req]) wi)))))).
Proof.
  intros req wi.
  destruct (plain_failure (server req)) eqn:Hplain.
  - right. right. split; [reflexivity |].
    apply fetchAPI_plain_failure_run. exact Hplain.
  - destruct (server req) as [status body | |] eqn:Hreply; try discriminate.
    cbn [plain_failure] in Hplain. apply andb_false_iff in Hplain as [H | H];
      apply negb_false_iff in H.
    + left. exists status, body. apply andb_prop in H as [H1 H2].
      apply Z.leb_le in H1. apply Z.ltb_lt in H2.
      split; [reflexivity | split; [lia |]].
      apply (fetchAPI_resolved server endpoint options w status body Hreply). lia.
    + right. left. apply Z.eqb_eq in H. subst status.
      destruct (fetchAPI_401_run endpoint options w body Hreply) as (c & Hrun).
      exists body, c. split; [reflexivity | exact Hrun].
Qed.

Lemma fetchAPI_form_frame (endpoint : string) (options : Options) (w : World) :
  let w' := world_after (fetchAPI server endpoint options) w in
  results w' = results w /\
  playlistUrl w' = playlistUrl w /\ playlistName w' = playlistName w /\
  navigations w' = navigations w.
Proof.
  intros w'. subst w'. unfold world_after.
  destruct (intercepted_frame endpoint options w) as (ls & n & c & Hwi).
  destruct (fetchAPI_ends endpoint options w)
    as [(status & body & _ & _ & ->) | [(body & c' & _ & ->) | (_ & ->)]];
    rewrite Hwi; repeat split.
Qed.

(** X10.  One call, one attempt: whatever comes back, [fetchAPI] has handed
    exactly one request to the network, with the caller's address and body
    and the caller's method ([GET] when none or an empty one is given), and
    it has left the conversion result, the form fields and the router
    alone. *)
Theorem fetchAPI_single_attempt (endpoint : string) (options : Options) (w : World) :
  let w' := world_after (fetchAPI server endpoint options) w in
  exists req,
    network w' = network w ++ [req] /\
    url req = endpoint /\
    data req = opt_body options /\
    method req = (if truthy_string (opt_method options)
                  then String_of (opt_method options) else "GET") /\
    results w' = results w /\
    playlistUrl w' = playlistUrl w /\ playlistName w' = playlistName w /\
    navigations w' = navigations w.
Proof.
  intros w'. subst w'. exists (dispatched endpoint options w).
  destruct (dispatched_frame endpoint options w) as (Hmethod & Hurl & Hdata).
  split; [apply fetchAPI_network | split; [exact Hurl | split; [exact Hdata |]]].
  split; [exact Hmethod | apply fetchAPI_form_frame].
Qed.

(** X11.  Only a 401 ends the session.  After any other outcome, success or
    failure, [isLoggedIn] and [userData] are what they were, and the token
    store is as the interceptor left it; after a 2xx response the caller has
    the body as it came and the error and the two loading flags are what they
    were. *)
Theorem fetchAPI_session_ends_only_on_401 (endpoint : string) (options : Options)
    (w : World) :
  let t := server (dispatched endpoint options w) in
  let w' := world_after (fetchAPI server endpoint options) w in
  ((forall body, t <> Reply 401 body) ->
   isLoggedIn w' = isLoggedIn w /\ userData w' = userData w /\
   localStorage w' = localStorage (intercepted endpoint options w)) /\
  (forall status body, t = Reply status body -> 200 <= status < 300 ->
   result_of (fetchAPI server endpoint options) w = body /\
   error w' = error w /\ isAuthLoading w' = isAuthLoading w /\
   isConverting w' = isConverting w).
Proof.
  intros t w'. subst t w'. unfold world_after, result_of. split.
  - intros Hnot.
    destruct (intercepted_frame endpoint options w) as (ls & n & c & Hwi).
    destruct (fetchAPI_ends endpoint options w)
      as [(status & body & _ & _ & ->) | [(body & c' & H401 & _) | (_ & ->)]].
    + rewrite Hwi. repeat split.
    + exfalso. exact (Hnot body H401).
    + rewrite Hwi. repeat split.
  - intros status body Hreply Hstatus.
    rewrite (fetchAPI_resolved server _ _ _ status body Hreply Hstatus).
    destruct (intercepted_frame endpoint options w) as (ls & n & c & ->).
    repeat split.
Qed.

(** Every failure hands [null] to the caller and stops both spinners. *)
Lemma fetchAPI_failure_is_null (endpoint : string) (options : Options) (w : World) :
  (forall status body,
     server (dispatched endpoint options w) = Reply status body -> ~ 200 <= status < 300) ->
  let w' := world_after (fetchAPI server endpoint options) w in
  result_of (fetchAPI server endpoint options) w = JNull /\
  isAuthLoading w' = false /\ isConverting w' = false.
Proof.
  intros Hfail w'. subst w'. unfold world_after, result_of.
  destruct (fetchAPI_ends endpoint options w)
    as [(status & body & Hreply & Hstatus & _) | [(body & c' & _ & ->) | (_ & ->)]].
  - exfalso. exact (Hfail status body Hreply Hstatus).
  - repeat split.
  - repeat split.
Qed.

Lemma fetchAPI_store (endpoint : string) (options : Options) (w : World) :
  let w' := world_after (fetchAPI server endpoint options) w in
  localStorage w' = localStorage w \/ localStorage w' = clear_store (localStorage w).
Proof.
  intros w'. subst w'. unfold world_after.
  pose proof (intercepted_store endpoint options w) as Hstore.
  destruct (fetchAPI_ends endpoint options w)
    as [(status & body & _ & _ & ->) | [(body & c' & _ & ->) | (_ & ->)]]; run.
  - exact Hstore.
  - right. destruct Hstore as [-> | ->]; [reflexivity | apply clear_store_idempotent].
  - exact Hstore.
Qed.

End FetchFrame.

Lemma fetchAPI_session_ends_only_on_401_witness :
  let server := fun _ : Request => Reply 503 JNull in
  let w := with_userData (JObject [("id", JString "u1")])
             (with_isLoggedIn true
                (fresh_world {[ ACCESS_TOKEN_KEY := "A"; EXPIRY_TIMESTAMP_KEY := "1700003600000" ]}
                   1700000000000)) in
  let w' := world_after (fetchAPI server "/convert" no_options) w in
  isLoggedIn w' = true /\ localStorage w' !! ACCESS_TOKEN_KEY = Some "A".
Proof.
  intros server w w'.
  destruct (proj1 (fetchAPI_session_ends_only_on_401 server "/convert" no_options w))
    as (Hin & _ & Hstore).
  - intros body. discriminate.
  - split; [exact Hin |]. fold w' in Hstore. rewrite Hstore. reflexivity.
Defined.

(** ** The status check, all cases *)

Section StatusCases.

Variable server : Request -> Transport.

Lemma checkAuthStatus_run (w : World) :
  truthy_string (localStorage w !! ACCESS_TOKEN_KEY) = true ->
  result_of isTokenExpired w = false ->
  checkAuthStatus server w =
  let (data, w3) := fetchAPI server "/auth/status" no_options (checking w) in
  (JUndefined,
   with_isAuthLoading false
     (if truthy data && truthy (get_prop data "user")
      then with_userData (get_prop data "user") (with_isLoggedIn true
             (with_console (console w3 ++ [(LevelLog, "User logged in:")]) w3))
      else with_userData JNull (with_isLoggedIn false
             (with_console
                (console w3 ++
                   [(LevelWarn,
                     "/auth/status check returned OK but no user data. Assuming logged out.");
                    (LevelLog, "Tokens cleared.")])
                (with_localStorage clear_store w3))))).
Proof.
  intros Htoken Hfresh. unfold checkAuthStatus. run. rewrite Htoken. run.
  rewrite (isTokenExpired_same_store w) by reflexivity. rewrite Hfresh.
  assert (truthy_timestamp (stored_expiry w) = true) as ->.
  { unfold result_of in Hfresh. rewrite isTokenExpired_run in Hfresh.
    destruct (truthy_timestamp _); [reflexivity | discriminate]. }
  run. fold (checking w).
  destruct (fetchAPI server "/auth/status" no_options (checking w)) as [data0 w3].
  destruct (truthy data0 && truthy (get_prop data0 "user")); run.
  - reflexivity.
  - rewrite clearTokens_run. run. rewrite <- app_assoc. unfold clear_store. same_world.
Qed.

(** X12.  With a token the policy accepts, any answer to the status request
    other than a 2xx response with a user record logs the session out and
    removes the three entries of the token store: an error status, a 2xx
    body without a user, and also no answer at all. *)
Theorem checkAuthStatus_any_failure_clears_tokens (w : World) :
  truthy_string (localStorage w !! ACCESS_TOKEN_KEY) = true ->
  result_of isTokenExpired w = false ->
  (forall status body,
     server (dispatched "/auth/status" no_options (checking w)) = Reply status body ->
     200 <= status < 300 -> truthy (get_prop body "user") = false) ->
  let w' := world_after (checkAuthStatus server) w in
  tokens_cleared w' /\ isLoggedIn w' = false /\ userData w' = JNull.
Proof.
  intros Htoken Hfresh Hnouser w'. subst w'. unfold world_after.
  rewrite checkAuthStatus_run by assumption.
  assert (forall data w3, fetchAPI server "/auth/status" no_options (checking w) = (data, w3) ->
                          truthy data && truthy (get_prop data "user") = false) as Hdata.
  { intros data w3 Hrun.
    destruct (fetchAPI_ends server "/auth/status" no_options (checking w))
      as [(status & body & Hreply & Hstatus & Heq) | [(body & c' & _ & Heq) | (_ & Heq)]];
      rewrite Heq in Hrun; injection Hrun as <- _; [| reflexivity | reflexivity].
    rewrite (Hnouser status body Hreply Hstatus). apply andb_false_r. }
  destruct (fetchAPI server "/auth/status" no_options (checking w)) as [data w3] eqn:Hrun.
  rewrite (Hdata data w3 eq_refl). run.
  repeat split; apply cleared_lookup; auto.
Qed.

(** X13.  However it goes, a status check ends with the loading flag down,
    has sent at most one request, has not touched the conversion result or
    the form, and leaves a session that is logged in with a user to show, or
    else logged out with an empty token store.  The page then shows exactly
    one of the user panel and the login prompt. *)
Theorem checkAuthStatus_always_settles (w : World) :
  let w' := world_after (checkAuthStatus server) w in
  isAuthLoading w' = false /\
  (network w' = network w \/ exists req, network w' = network w ++ [req]) /\
  results w' = results w /\
  playlistUrl w' = playlistUrl w /\ playlistName w' = playlistName w /\
  ((isLoggedIn w' = true /\ truthy (userData w') = true) \/
   (isLoggedIn w' = false /\ userData w' = JNull /\ tokens_cleared w')) /\
  xorb (shows_user_info w') (shows_login_prompt w') = true.
Proof.
  intros w'.
  assert (isAuthLoading w' = false /\
          (network w' = network w \/ exists req, network w' = network w ++ [req]) /\
          results w' = results w /\
          playlistUrl w' = playlistUrl w /\ playlistName w' = playlistName w /\
          ((isLoggedIn w' = true /\ truthy (userData w') = true) \/
           (isLoggedIn w' = false /\ userData w' = JNull /\ tokens_cleared w')))
    as (Hloading & Hnet & Hres & Hurl & Hname & Hsession).
  { subst w'.
    destruct (truthy_string (localStorage w !! ACCESS_TOKEN_KEY)) eqn:Htoken;
      [destruct (result_of isTokenExpired w) eqn:Hfresh |].
    2:{ unfold world_after. rewrite checkAuthStatus_run by assumption.
        pose proof (fetchAPI_network server "/auth/status" no_options (checking w)) as Hnet.
        destruct (fetchAPI_form_frame server "/auth/status" no_options (checking w))
          as (Hres & Hurl & Hname & _).
        set (req := dispatched "/auth/status" no_options (checking w)) in Hnet.
        unfold world_after in Hnet, Hres, Hurl, Hname.
        destruct (fetchAPI server "/auth/status" no_options (checking w)) as [data w3].
        cbn [snd] in Hnet, Hres, Hurl, Hname.
        destruct (truthy data && truthy (get_prop data "user")) eqn:Huser; run.
        - apply andb_prop in Huser as [_ Huser].
          split; [reflexivity | split; [right; exists req; exact Hnet |]].
          repeat split; auto.
        - split; [reflexivity | split; [right; exists req; exact Hnet |]].
          split; [exact Hres | split; [exact Hurl | split; [exact Hname |]]].
          right. repeat split; apply cleared_lookup; auto. }
    all: unfold world_after;
      (destruct (checkAuthStatus_short_circuit server w) as (n & c & ->); [auto |]);
      run; split; [reflexivity | split; [left; reflexivity |]];
      repeat split; right; repeat split; apply cleared_lookup; auto. }
  repeat (split; [assumption |]).
  unfold shows_user_info, shows_login_prompt. rewrite Hloading.
  destruct Hsession as [(-> & ->) | (-> & -> & _)]; reflexivity.
Qed.

End StatusCases.

Lemma checkAuthStatus_any_failure_clears_tokens_witness :
  let server := fun _ : Request => NoReply in
  let w := fresh_world {[ ACCESS_TOKEN_KEY := "A"; EXPIRY_TIMESTAMP_KEY := "1700003600000" ]}
             1700000000000 in
  let w' := world_after (checkAuthStatus server) w in
  tokens_cleared w' /\ isLoggedIn w' = false /\ userData w' = JNull.
Proof.
  intros server w w'.
  apply (checkAuthStatus_any_failure_clears_tokens server w eq_refl eq_refl).
  intros status body Hreply. discriminate Hreply.
Defined.

(** ** The conversion workflow, all cases *)

Section ConvertCases.

Variable server : Request -> Transport.

(** X14.  A 2xx answer flagged successful puts its [data] on display, empties
    the two form fields, and leaves no error; the converting flag is down. *)
Theorem handleConvert_success (w : World) (status : Z) (body : JSValue) :
  server (dispatched "/convert" (convert_options w) (converting w)) = Reply status body ->
  200 <= status < 300 ->
  truthy (get_prop body "success") = true ->
  let w' := world_after (handleConvert server) w in
  results w' = get_prop body "data" /\
  playlistUrl w' = JString "" /\ playlistName w' = JString "" /\
  error w' = JNull /\ isConverting w' = false.
Proof.
  intros Hreply Hstatus Hsuccess w'. subst w'. unfold world_after.
  rewrite handleConvert_run.
  rewrite (fetchAPI_resolved server _ _ _ status body Hreply Hstatus).
  rewrite Hsuccess, (truthy_get_prop _ _ Hsuccess).
  destruct (intercepted_frame "/convert" (convert_options w) (converting w))
    as (ls & n & c & ->).
  repeat split.
Qed.

(** X15.  When the request fails (anything but a 2xx response), nothing is
    put on display and the form keeps what the user typed; the error is the
    one [fetchAPI] chose, and the converting flag is down.  After a 401 the
    session is logged out as well, so the form is disabled and the login
    prompt is back. *)
Theorem handleConvert_failure (w : World) :
  let t := server (dispatched "/convert" (convert_options w) (converting w)) in
  let w' := world_after (handleConvert server) w in
  (forall status body, t = Reply status body -> ~ 200 <= status < 300) ->
  results w' = JNull /\
  playlistUrl w' = playlistUrl w /\ playlistName w' = playlistName w /\
  isConverting w' = false /\
  (plain_failure t = true -> error w' = failure_message t) /\
  (forall body, t = Reply 401 body ->
     error w' = JString "Your session has expired or is invalid. Please log in again." /\
     isLoggedIn w' = false /\ tokens_cleared w' /\
     submit_disabled w' = true /\ inputs_disabled w' = true /\
     shows_login_prompt w' = negb (isAuthLoading w')).
Proof.
  intros t w' Hfail. subst t w'. unfold world_after. rewrite handleConvert_run.
  destruct (intercepted_frame "/convert" (convert_options w) (converting w))
    as (ls & n & c & Hwi).
  destruct (fetchAPI_ends server "/convert" (convert_options w) (converting w))
    as [(status & body & Hreply & Hstatus & _) | [(body & c' & H401 & ->) | (Hplain & ->)]].
  - exfalso. exact (Hfail status body Hreply Hstatus).
  - rewrite Hwi, H401. cbn [truthy andb]. run.
    split; [reflexivity | split; [reflexivity | split; [reflexivity | split; [reflexivity |]]]].
    split; [discriminate |].
    intros body' _. unfold submit_disabled, inputs_disabled, shows_login_prompt. run.
    repeat split; try reflexivity; try (apply cleared_lookup; auto).
  - rewrite Hwi. cbn [truthy andb]. run.
    split; [reflexivity | split; [reflexivity | split; [reflexivity | split; [reflexivity |]]]].
    split; [reflexivity |].
    intros body H401. rewrite H401 in Hplain. discriminate Hplain.
Qed.

(** X16.  A submission replaces what the previous one left: the outcome of
    [handleConvert], world and all, does not depend on the result and the
    error that were on display when it started. *)
Theorem handleConvert_replaces_previous (w : World) (previous_results previous_error : JSValue) :
  handleConvert server (with_results previous_results (with_error previous_error w))
  = handleConvert server w.
Proof.
  rewrite !handleConvert_run. reflexivity.
Qed.

(** X17.  The playlist name that is posted is never empty: it is the name in
    the form when there is one, and ['Converted YouTube Playlist']
    otherwise. *)
Theorem handleConvert_name_is_never_empty (w : World) :
  exists req name,
    network (world_after (handleConvert server) w) = network w ++ [req] /\
    data req = JObject [("playlist_url", playlistUrl w); ("playlist_name", name)] /\
    truthy name = true /\
    (truthy (playlistName w) = true -> name = playlistName w) /\
    (truthy (playlistName w) = false -> name = JString "Converted YouTube Playlist").
Proof.
  exists (dispatched "/convert" (convert_options w) (converting w)),
         (js_or (playlistName w) (JString "Converted YouTube Playlist")).
  destruct (dispatched_frame "/convert" (convert_options w) (converting w))
    as (_ & _ & Hdata).
  split; [apply handleConvert_network | split; [exact Hdata |]].
  unfold js_or. destruct (truthy (playlistName w)) eqn:Hname;
    repeat split; auto; discriminate.
Qed.

End ConvertCases.

Lemma handleConvert_success_witness :
  let body := JObject [("success", JBool true);
                       ("data", JObject [("spotify_playlist_url", JString "https://open.spotify.com/playlist/1")])] in
  let server := fun _ : Request => Reply 200 body in
  let w := with_playlistUrl (JString "https://music.youtube.com/playlist?list=PL1")
             (fresh_world ∅ 1700000000000) in
  let w' := world_after (handleConvert server) w in
  results w' = JObject [("spotify_playlist_url", JString "https://open.spotify.com/playlist/1")] /\
  playlistUrl w' = JString "".
Proof.
  intros body server w w'.
  destruct (handleConvert_success server w 200 body eq_refl ltac:(lia) eq_refl)
    as (Hres & Hurl & _).
  split; [exact Hres | exact Hurl].
Defined.

Lemma handleConvert_failure_witness :
  let server := fun _ : Request => Reply 401 JNull in
  let w := with_isLoggedIn true
             (with_playlistUrl (JString "https://music.youtube.com/playlist?list=PL1")
                (fresh_world {[ ACCESS_TOKEN_KEY := "A"; EXPIRY_TIMESTAMP_KEY := "1700003600000" ]}
                   1700000000000)) in
  let w' := world_after (handleConvert server) w in
  results w' = JNull /\ isLoggedIn w' = false /\ submit_disabled w' = true.
Proof.
  intros server w w'.
  destruct (handleConvert_failure server w) as (Hres & _ & _ & _ & _ & H401).
  - intros status body [= <- _]. lia.
  - destruct (H401 JNull eq_refl) as (_ & Hout & _ & Hsubmit & _).
    split; [exact Hres | split; [exact Hout | exact Hsubmit]].
Defined.

(** ** Logout, and the token store under every handler *)

Lemma handleLogout_run (w : World) :
  handleLogout w =
  (JUndefined,
   with_results JNull (with_error JNull (with_userData JNull (with_isLoggedIn false
     (with_console
        (console w ++ [(LevelLog, "Handling logout: Clearing tokens and updating state.");
                       (LevelLog, "Tokens cleared.")])
        (with_localStorage clear_store w)))))).
Proof.
  unfold handleLogout. run. rewrite clearTokens_run. run.
  rewrite <- app_assoc. unfold clear_store. same_world.
Qed.

(** X18.  After a logout the form is disabled, no user panel, result or
    error is left, and the login prompt is shown once the page is past its
    loading screen; the token entries are removed and no other entry of
    [localStorage] is touched.  The clock is not read and the router is not
    used.  A second logout changes nothing but the console. *)
Theorem handleLogout_then_view (w : World) :
  let w1 := world_after handleLogout w in
  submit_disabled w1 = true /\ inputs_disabled w1 = true /\
  shows_user_info w1 = false /\
  shows_login_prompt w1 = negb (isAuthLoading w) /\
  localStorage w1 = clear_store (localStorage w) /\
  (forall k, ~ is_token_key k -> localStorage w1 !! k = localStorage w !! k) /\
  clock_reads w1 = clock_reads w /\ navigations w1 = navigations w /\
  (exists c, world_after handleLogout w1 = with_console c w1).
Proof.
  intros w1. subst w1. unfold world_after. rewrite !handleLogout_run. cbn [snd].
  unfold submit_disabled, inputs_disabled, shows_user_info, shows_login_prompt. run.
  rewrite andb_false_r, andb_true_r.
  repeat split.
  - intros k Hk. rewrite clear_store_lookup. destruct (decide _); [contradiction | reflexivity].
  - eexists.
    cbv [with_localStorage with_clock_reads with_console with_network with_navigations
         with_authError with_isLoggedIn with_userData with_playlistUrl with_playlistName
         with_isAuthLoading with_isConverting with_error with_results
         localStorage clock clock_reads console network navigations authError
         isLoggedIn userData playlistUrl playlistName isAuthLoading isConverting
         error results].
    rewrite clear_store_idempotent. reflexivity.
Qed.

Section StoreCases.

Variable server : Request -> Transport.
Variable URLSearchParams : string -> list (string * string).

Lemma checkAuthStatus_store (w : World) :
  let w' := world_after (checkAuthStatus server) w in
  localStorage w' = localStorage w \/ localStorage w' = clear_store (localStorage w).
Proof.
  intros w'. subst w'.
  destruct (truthy_string (localStorage w !! ACCESS_TOKEN_KEY)) eqn:Htoken;
    [destruct (result_of isTokenExpired w) eqn:Hfresh |].
  2:{ unfold world_after. rewrite checkAuthStatus_run by assumption.
      pose proof (fetchAPI_store server "/auth/status" no_options (checking w)) as Hstore.
      unfold world_after in Hstore.
      destruct (fetchAPI server "/auth/status" no_options (checking w)) as [data w3].
      cbn [snd] in Hstore. change (localStorage (checking w)) with (localStorage w) in Hstore.
      destruct (truthy data && truthy (get_prop data "user")); run; [exact Hstore |].
      right. destruct Hstore as [-> | ->]; [reflexivity | apply clear_store_idempotent]. }
  all: unfold world_after;
    (destruct (checkAuthStatus_short_circuit server w) as (n & c & ->); [auto |]);
    right; reflexivity.
Qed.

Lemma handleConvert_store (w : World) :
  let w' := world_after (handleConvert server) w in
  localStorage w' = localStorage w \/ localStorage w' = clear_store (localStorage w).
Proof.
  intros w'. subst w'. unfold world_after. rewrite handleConvert_run.
  pose proof (fetchAPI_store server "/convert" (convert_options w) (converting w)) as Hstore.
  unfold world_after in Hstore.
  destruct (fetchAPI server "/convert" _ _) as [data w1]. cbn [snd] in Hstore |- *.
  change (localStorage (converting w)) with (localStorage w) in Hstore.
  destruct (truthy data && truthy (get_prop data "success")); [exact Hstore |].
  destruct (truthy data && truthy (get_prop data "error")); [| exact Hstore].
  destruct (truthy (get_prop data "data")); exact Hstore.
Qed.

Lemma AuthCallback_store (hash : string) (w : World) :
  let w' := world_after (AuthCallback URLSearchParams hash) w in
  localStorage w' = localStorage w \/
  localStorage w' = clear_store (localStorage w) \/
  exists a r x, localStorage w' = store_with a r x (localStorage w).
Proof.
  intros w'. subst w'. unfold AuthCallback. run.
  set (params := URLSearchParams (substring_1 hash)).
  destruct (truthy_string (params_get params "error")); run.
  - rewrite clearTokens_run. run. right. left. reflexivity.
  - destruct (truthy_string (params_get params "access_token")
              && truthy_string (params_get params "expires_in")) eqn:Htokens; run.
    + apply andb_prop in Htokens as [Ha He].
      destruct (params_get params "access_token") as [[| c a] |]; try discriminate.
      destruct (params_get params "expires_in") as [[| c' e] |]; try discriminate.
      rewrite storeTokens_run by discriminate. run.
      right. right. do 3 eexists. reflexivity.
    + left. reflexivity.
Qed.

Lemma store_paired_clear (ls : gmap string string) : store_paired (clear_store ls).
Proof.
  unfold store_paired. rewrite !clear_store_lookup.
  repeat (destruct (decide _) as [_ | Hk]; [| exfalso; apply Hk; unfold is_token_key; auto]).
  split; [reflexivity | auto].
Qed.

Lemma store_paired_store_with (a : string) (r : option string) (x : number)
    (ls : gmap string string) :
  store_paired (store_with a r x ls).
Proof.
  unfold store_paired. rewrite !store_with_lookup.
  destruct token_keys_distinct as (Har & Hae & Hre).
  repeat (destruct (decide _); try congruence).
  split; [split; eauto | eauto].
Qed.

(** X19.  The token store is never torn.  If, before a handler runs, the
    access token and the expiry are stored together and a refresh token only
    along with them, the same holds after it, for each of [AuthCallback],
    [checkAuthStatus], [handleConvert] and [handleLogout]. *)
Theorem handlers_keep_the_store_paired (hash : string) (w : World) :
  store_paired (localStorage w) ->
  store_paired (localStorage (world_after (AuthCallback URLSearchParams hash) w)) /\
  store_paired (localStorage (world_after (checkAuthStatus server) w)) /\
  store_paired (localStorage (world_after (handleConvert server) w)) /\
  store_paired (localStorage (world_after handleLogout w)).
Proof.
  intros Hpaired. split; [| split; [| split]].
  - destruct (AuthCallback_store hash w) as [-> | [-> | (a & r & x & ->)]];
      auto using store_paired_clear, store_paired_store_with.
  - destruct (checkAuthStatus_store w) as [-> | ->]; auto using store_paired_clear.
  - destruct (handleConvert_store w) as [-> | ->]; auto using store_paired_clear.
  - unfold world_after. rewrite handleLogout_run. apply store_paired_clear.
Qed.

(** X20.  No handler writes any entry of [localStorage] other than the three
    of the token store: every other key holds after [AuthCallback],
    [checkAuthStatus], [handleConvert] and [handleLogout] what it held
    before. *)
Theorem handlers_leave_other_keys_alone (hash : string) (w : World) (k : string) :
  ~ is_token_key k ->
  localStorage (world_after (AuthCallback URLSearchParams hash) w) !! k = localStorage w !! k /\
  localStorage (world_after (checkAuthStatus server) w) !! k = localStorage w !! k /\
  localStorage (world_after (handleConvert server) w) !! k = localStorage w !! k /\
  localStorage (world_after handleLogout w) !! k = localStorage w !! k.
Proof.
  intros Hk.
  assert (clear_store (localStorage w) !! k = localStorage w !! k) as Hclear
    by (rewrite clear_store_lookup; destruct (decide _); [contradiction | reflexivity]).
  split; [| split; [| split]].
  - destruct (AuthCallback_store hash w) as [-> | [-> | (a & r & x & ->)]]; auto.
    rewrite store_with_lookup. unfold is_token_key in Hk.
    repeat (destruct (decide _); [exfalso; apply Hk; auto |]). reflexivity.
  - destruct (checkAuthStatus_store w) as [-> | ->]; auto.
  - destruct (handleConvert_store w) as [-> | ->]; auto.
  - unfold world_after. rewrite handleLogout_run. exact Hclear.
Qed.

End StoreCases.

Lemma handlers_keep_the_store_paired_witness :
  let w := fresh_world {[ ACCESS_TOKEN_KEY := "A"; EXPIRY_TIMESTAMP_KEY := "1700003600000" ]}
             1700000000000 in
  store_paired
    (localStorage (world_after (AuthCallback form_pairs "#access_token=B&expires_in=3600") w)).
Proof.
  intros w.
  refine (proj1 (handlers_keep_the_store_paired (fun _ => NoReply) form_pairs
                   "#access_token=B&expires_in=3600" w _)).
  split; [split; intros _; eexists; reflexivity | intros [x Hx]; discriminate Hx].
Defined.

Lemma handlers_leave_other_keys_alone_witness :
  let w := fresh_world {[ "theme" := "dark"; ACCESS_TOKEN_KEY := "A" ]} 1700000000000 in
  localStorage (world_after handleLogout w) !! "theme" = Some "dark".
Proof.
  intros w.
  refine (eq_trans
            (proj2 (proj2 (proj2 (handlers_leave_other_keys_alone (fun _ => NoReply) form_pairs
                                    "" w "theme" _))))
            eq_refl).
  intros [Hk | [Hk | Hk]]; discriminate Hk.
Defined.

(** ** [escapeHTML] *)

Lemma In_list_ascii_append (d : ascii) (s1 s2 : string) :
  In d (list_ascii_of_string (s1 +:+ s2)) <->
  In d (list_ascii_of_string s1) \/ In d (list_ascii_of_string s2).
Proof.
  induction s1 as [| c s1 IH]; simpl.
  - tauto.
  - rewrite IH. tauto.
Qed.

Lemma escape_safe (c d : ascii) :
  In d (list_ascii_of_string (escape c)) ->
  d <> "<"%char /\ d <> ">"%char /\ d <> "034"%char /\ d <> "'"%char /\ d <> "/"%char.
Proof.
  escape_cases c; simpl; intros Hd;
    repeat (destruct Hd as [<- | Hd]; [repeat split; congruence |]); contradiction.
Qed.

(** X21.  The output of [escapeHTML] contains no less-than sign, no
    greater-than sign, no double quote, no apostrophe and no slash, whatever
    the input. *)
Theorem escapeHTML_output_is_safe (str : option string) (d : ascii) :
  In d (list_ascii_of_string (escapeHTML str)) ->
  d <> "<"%char /\ d <> ">"%char /\ d <> "034"%char /\ d <> "'"%char /\ d <> "/"%char.
Proof.
  unfold escapeHTML. destruct (negb (truthy_string str)); [simpl; contradiction |].
  induction (String_of str) as [| c s IH]; simpl; [contradiction |].
  rewrite In_list_ascii_append. intros [Hd | Hd]; [exact (escape_safe c d Hd) | auto].
Qed.

Lemma escapeHTML_output_is_safe_witness :
  In ";"%char (list_ascii_of_string (escapeHTML (Some "<b>"))) /\ ";"%char <> "<"%char.
Proof.
  assert (In ";"%char (list_ascii_of_string (escapeHTML (Some "<b>")))) as Hin
    by (vm_compute; tauto).
  split; [exact Hin |].
  exact (proj1 (escapeHTML_output_is_safe (Some "<b>") ";" Hin)).
Defined.

Lemma escape_separates (c1 c2 : ascii) (x y : string) :
  escape c1 +:+ x = escape c2 +:+ y -> c1 = c2 /\ x = y.
Proof.
  escape_cases c1; escape_cases c2; cbv [String.append]; intros H;
    solve [discriminate H | split; congruence | exfalso; congruence].
Qed.

Lemma escape_all_injective (s1 s2 : string) :
  escape_all s1 = escape_all s2 -> s1 = s2.
Proof.
  revert s2. induction s1 as [| c1 s1 IH]; intros [| c2 s2]; simpl; intros H.
  - reflexivity.
  - exfalso. revert H. escape_cases c2; cbv [String.append]; discriminate.
  - exfalso. revert H. escape_cases c1; cbv [String.append]; discriminate.
  - destruct (escape_separates _ _ _ _ H) as [-> H']. f_equal. apply IH. exact H'.
Qed.

(** X22.  Escaping loses nothing: two different strings never escape to the
    same text. *)
Theorem escapeHTML_is_injective (s1 s2 : string) :
  escapeHTML (Some s1) = escapeHTML (Some s2) -> s1 = s2.
Proof.
  assert (forall s, escapeHTML (Some s) = escape_all s) as Hescape
    by (intros [| c s]; reflexivity).
  rewrite !Hescape. apply escape_all_injective.
Qed.

Lemma escapeHTML_is_injective_witness :
  "Tom " +:+ "& Jerry" = "Tom & Jerry".
Proof. exact (escapeHTML_is_injective ("Tom " +:+ "& Jerry") "Tom & Jerry" eq_refl). Defined.

Lemma escape_all_length (s : string) : (String.length s <= String.length (escape_all s))%nat.
Proof.
  induction s as [| c s IH]; simpl; [lia |].
  revert IH. escape_cases c; cbv [String.append]; simpl; lia.
Qed.

(** X23.  [escapeHTML] gives the empty text for [null] and for the empty
    string, never shortens a string, and returns a string unchanged exactly
    when it holds none of the six characters of the pattern. *)
Theorem escapeHTML_fixes_plain_text (s : string) :
  escapeHTML None = EmptyString /\
  escapeHTML (Some EmptyString) = EmptyString /\
  (String.length s <= String.length (escapeHTML (Some s)))%nat /\
  (escapeHTML (Some s) = s <->
   forall c, In c (list_ascii_of_string s) -> escape c = String c EmptyString).
Proof.
  assert (forall s, escapeHTML (Some s) = escape_all s) as Hescape
    by (intros [| c s']; reflexivity).
  split; [reflexivity | split; [reflexivity | split]].
  - rewrite Hescape. apply escape_all_length.
  - rewrite Hescape. induction s as [| c s IH]; simpl.
    + split; [intros _ c [] | reflexivity].
    + split.
      * intros H c' [<- | Hc'].
        -- revert H. escape_cases c; cbv [String.append]; intros H;
             first [ reflexivity | discriminate H
                   | injection H as H; apply (f_equal String.length) in H; simpl in H;
                     pose proof (escape_all_length s); lia ].
        -- apply IH; [| exact Hc'].
           revert H. escape_cases c; cbv [String.append]; intros H;
             first [ discriminate H
                   | injection H as H; exact H
                   | injection H as H; apply (f_equal String.length) in H; simpl in H;
                     pose proof (escape_all_length s); lia ].
      * intros H. rewrite (H c (or_introl eq_refl)). cbv [String.append]. f_equal.
        apply IH. intros c' Hc'. apply H. right. exact Hc'.
Qed.

(** ** The draft with a session cookie *)

Section CookieDraftProperties.

Variable server : Request -> Transport.
Variable URLSearchParams : string -> list (string * string).

Lemma cookie_fetchAPI_resolved (endpoint : string) (options : Options)
    (w : CookieDraft.World) (status : Z) (body : JSValue) :
  server (fetchAPI_config endpoint options) = Reply status body ->
  200 <= status < 300 ->
  CookieDraft.fetchAPI server endpoint options w =
  (body,
   CookieDraft.with_network
     (CookieDraft.network w ++ [fetchAPI_config endpoint options]) w).
Proof.
  intros Hreply Hstatus. unfold CookieDraft.fetchAPI. CookieDraft.run.
  rewrite Hreply. cbn [settle].
  assert ((200 <=? status) && (status <? 300) = true) as ->
    by (apply andb_true_intro; split; [apply Z.leb_le | apply Z.ltb_lt]; lia).
  reflexivity.
Qed.

(** Every failure of the draft's [fetchAPI] hands back [null], and touches
    the session at most by logging it out. *)
Lemma cookie_fetchAPI_rejected (endpoint : string) (options : Options)
    (w : CookieDraft.World) :
  (forall status body,
     server (fetchAPI_config endpoint options) = Reply status body ->
     ~ 200 <= status < 300) ->
  exists msg c (out : bool),
    CookieDraft.fetchAPI server endpoint options w =
    (JNull,
     CookieDraft.with_isConverting false (CookieDraft.with_isLoading false
       (CookieDraft.with_error msg
          (CookieDraft.with_userData (if out then JNull else CookieDraft.userData w)
             (CookieDraft.with_isLoggedIn (if out then false else CookieDraft.isLoggedIn w)
                (CookieDraft.with_console c
                   (CookieDraft.with_network
                      (CookieDraft.network w ++ [fetchAPI_config endpoint options]) w))))))).
Proof.
  intros Hfail. unfold CookieDraft.fetchAPI. CookieDraft.run.
  destruct (server (fetchAPI_config endpoint options)) as [status body | | msg] eqn:Hreply;
    cbn [settle].
  - destruct ((200 <=? status) && (status <? 300)) eqn:H2xx.
    + exfalso. apply andb_prop in H2xx as [H1 H2].
      apply Z.leb_le in H1. apply Z.ltb_lt in H2.
      apply (Hfail status body eq_refl). lia.
    + CookieDraft.run. cbn [response option_map fst request].
      destruct (truthy body); CookieDraft.run.
      * destruct (status_is (Some status) 401 || truthy (get_prop body "auth_required"));
          CookieDraft.run.
        -- do 2 eexists. exists true. CookieDraft.same_world.
        -- do 2 eexists. exists false. CookieDraft.same_world.
      * do 2 eexists. exists false. CookieDraft.same_world.
  - CookieDraft.run. do 2 eexists. exists false. CookieDraft.same_world.
  - CookieDraft.run. do 2 eexists. exists false. CookieDraft.same_world.
Qed.

(** X24.  In the draft, a failed response with a body ends the session when
    its status is 401 or when the body is flagged [auth_required], whatever
    the status, and the error shown is the body's [error] or else
    ["Authentication required. Please log in."].  A 401 without a body does
    not end the session: it is shown as a response never received. *)
Theorem cookie_fetchAPI_ends_session_by_body (endpoint : string) (options : Options)
    (w : CookieDraft.World) (status : Z) (body : JSValue) :
  server (fetchAPI_config endpoint options) = Reply status body ->
  ~ 200 <= status < 300 ->
  let w' := CookieDraft.world_after (CookieDraft.fetchAPI server endpoint options) w in
  (truthy body = true ->
   status = 401 \/ truthy (get_prop body "auth_required") = true ->
   CookieDraft.isLoggedIn w' = false /\ CookieDraft.userData w' = JNull /\
   CookieDraft.error w'
   = js_or (get_prop body "error") (JString "Authentication required. Please log in.")) /\
  (truthy body = false ->
   CookieDraft.isLoggedIn w' = CookieDraft.isLoggedIn w /\
   CookieDraft.userData w' = CookieDraft.userData w /\
   CookieDraft.error w'
   = JString "No response received from server. Check network or server status.").
Proof.
  intros Hreply H2xx w'. subst w'. unfold CookieDraft.fetchAPI. CookieDraft.run.
  rewrite Hreply. cbn [settle].
  assert ((200 <=? status) && (status <? 300) = false) as ->.
  { apply andb_false_iff.
    destruct (Z.leb_spec 200 status); [right; apply Z.ltb_ge; lia | left; reflexivity]. }
  CookieDraft.run. cbn [response option_map fst request status_is].
  split.
  - intros -> Hauth.
    assert ((status =? 401) || truthy (get_prop body "auth_required") = true) as ->.
    { destruct Hauth as [-> | ->]; [reflexivity | apply orb_true_r]. }
    CookieDraft.run. repeat split.
  - intros ->. CookieDraft.run. repeat split.
Qed.

(** X25.  In the draft, a logout always ends logged out: one POST to
    [/auth/logout] is sent, and whatever comes back, or nothing, the session
    is logged out, the user and the result are gone and the loading flag is
    down.  The error is empty after a 2xx answer. *)
Theorem cookie_handleLogout_always_logs_out (w : CookieDraft.World) :
  let w' := CookieDraft.world_after (CookieDraft.handleLogout server) w in
  CookieDraft.isLoggedIn w' = false /\ CookieDraft.userData w' = JNull /\
  CookieDraft.results w' = JNull /\ CookieDraft.isLoading w' = false /\
  CookieDraft.network w' = CookieDraft.network w ++ [CookieDraft.logout_request] /\
  CookieDraft.shows_login_prompt w' = true /\
  (forall status body,
     server CookieDraft.logout_request = Reply status body -> 200 <= status < 300 ->
     CookieDraft.error w' = JNull).
Proof.
  intros w'. subst w'. unfold CookieDraft.handleLogout, CookieDraft.shows_login_prompt.
  CookieDraft.run. fold CookieDraft.logout_request.
  set (options := {| opt_method := Some "POST"; opt_body := JUndefined; opt_headers := None |}).
  set (w0 := CookieDraft.with_results JNull
               (CookieDraft.with_error JNull (CookieDraft.with_isLoading true w))).
  destruct (server CookieDraft.logout_request) as [status body | | msg] eqn:Hreply.
  1: destruct (Z.leb_spec 200 status) as [Hlo |]; [destruct (Z.ltb_spec status 300) as [Hhi |] |].
  1:{ rewrite (cookie_fetchAPI_resolved "/auth/logout" options w0 status body Hreply)
        by lia.
      CookieDraft.run. repeat split. }
  all: destruct (cookie_fetchAPI_rejected "/auth/logout" options w0) as (m & c & out & ->);
    [ intros status' body' Hr;
      change (server CookieDraft.logout_request = Reply status' body') in Hr;
      rewrite Hreply in Hr; try discriminate Hr; injection Hr as <- <-; lia
    | CookieDraft.run; repeat split;
      intros status' body' Hr; try discriminate Hr; injection Hr as <- <-; lia ].
Qed.

(** X26.  The draft's status check.  A 2xx answer flagged [logged_in] logs
    the session in with the answer's [user], and when the answer has no user
    the page shows neither the user panel nor the login prompt.  Any other
    outcome logs the session out; if the page carries an [error] parameter in
    its query string, that reason replaces whatever error [fetchAPI] had set
    and the query string is removed from the URL, and otherwise the URL is
    left as it is. *)
Theorem cookie_checkAuthStatus_cases (w : CookieDraft.World) :
  let t := server (fetchAPI_config "/auth/status" no_options) in
  let w' := CookieDraft.world_after (CookieDraft.checkAuthStatus server URLSearchParams) w in
  let errorParam := params_get (URLSearchParams (CookieDraft.location_search w)) "error" in
  CookieDraft.isLoading w' = false /\
  (forall status body,
     t = Reply status body -> 200 <= status < 300 ->
     truthy (get_prop body "logged_in") = true ->
     CookieDraft.isLoggedIn w' = true /\ CookieDraft.userData w' = get_prop body "user" /\
     (truthy (get_prop body "user") = false ->
      CookieDraft.shows_user_info w' = false /\ CookieDraft.shows_login_prompt w' = false)) /\
  ((forall status body,
      t = Reply status body -> 200 <= status < 300 ->
      truthy (get_prop body "logged_in") = false) ->
   CookieDraft.isLoggedIn w' = false /\ CookieDraft.userData w' = JNull /\
   (forall reason, errorParam = Some reason -> reason <> EmptyString ->
      CookieDraft.error w'
      = JString ("Login failed: " +:+ replace_underscores reason +:+ ". Please try again.") /\
      CookieDraft.location_search w' = EmptyString) /\
   (truthy_string errorParam = false ->
      CookieDraft.location_search w' = CookieDraft.location_search w)).
Proof.
  intros t w' errorParam. subst t w' errorParam.
  unfold CookieDraft.checkAuthStatus, CookieDraft.shows_user_info,
    CookieDraft.shows_login_prompt.
  CookieDraft.run.
  match goal with
  | |- context [CookieDraft.fetchAPI server "/auth/status" no_options ?W] => set (w0 := W)
  end.
  assert (forall data w1,
            CookieDraft.fetchAPI server "/auth/status" no_options w0 = (data, w1) ->
            CookieDraft.location_search w1 = CookieDraft.location_search w /\
            ((exists status,
                 server (fetchAPI_config "/auth/status" no_options) = Reply status data /\
                 200 <= status < 300) \/
             (data = JNull /\
              forall status body,
                server (fetchAPI_config "/auth/status" no_options) = Reply status body ->
                ~ 200 <= status < 300))) as Hfetch.
  { intros data w1 Hrun.
    destruct (server (fetchAPI_config "/auth/status" no_options))
      as [status body | | msg] eqn:Hreply.
    1: destruct (Z.leb_spec 200 status) as [Hlo |];
       [destruct (Z.ltb_spec status 300) as [Hhi |] |].
    1:{ rewrite (cookie_fetchAPI_resolved "/auth/status" no_options w0 status body Hreply)
          in Hrun by lia.
        injection Hrun as <- <-. split; [reflexivity |].
        left. exists status. split; [reflexivity | lia]. }
    all: assert (forall status' body',
                   server (fetchAPI_config "/auth/status" no_options) = Reply status' body' ->
                   ~ 200 <= status' < 300) as Hfail
      by (intros status' body' Hr; rewrite Hreply in Hr; try discriminate Hr;
          injection Hr as <- <-; lia);
      destruct (cookie_fetchAPI_rejected "/auth/status" no_options w0 Hfail)
        as (m & c & out & Heq);
      rewrite Heq in Hrun; injection Hrun as <- <-;
      (split; [reflexivity |]); right; (split; [reflexivity |]);
      intros status' body' Hr; try discriminate Hr; injection Hr as <- <-; lia. }
  destruct (CookieDraft.fetchAPI server "/auth/status" no_options w0) as [data w1] eqn:Hrun.
  destruct (Hfetch data w1 eq_refl) as (Hsearch & Hdata). clear Hfetch.
  split; [| split].
  - destruct (truthy data && truthy (get_prop data "logged_in")); CookieDraft.run;
      [reflexivity |].
    destruct (truthy_string _); reflexivity.
  - intros status body Hreply Hstatus Hlogged.
    destruct Hdata as [(status' & Hreply' & _) | (-> & Hfail)].
    + rewrite Hreply in Hreply'. injection Hreply' as <- <-.
      rewrite Hlogged, (truthy_get_prop _ _ Hlogged). CookieDraft.run.
      split; [reflexivity | split; [reflexivity |]].
      intros ->. split; reflexivity.
    + exfalso. exact (Hfail status body Hreply Hstatus).
  - intros Hout.
    assert (truthy data && truthy (get_prop data "logged_in") = false) as ->.
    { destruct Hdata as [(status' & Hreply' & Hstatus') | (-> & _)]; [| reflexivity].
      rewrite (Hout status' data Hreply' Hstatus'). apply andb_false_r. }
    CookieDraft.run. rewrite Hsearch.
    destruct (params_get (URLSearchParams (CookieDraft.location_search w)) "error")
      as [reason |] eqn:Hparam.
    + destruct reason as [| c reason].
      * cbn [truthy_string]. CookieDraft.run.
        split; [reflexivity | split; [reflexivity | split]].
        -- intros reason' [= <-] Hne. contradiction.
        -- intros _. exact Hsearch.
      * cbn [truthy_string]. CookieDraft.run.
        split; [reflexivity | split; [reflexivity | split]].
        -- intros reason' [= <-] _. split; reflexivity.
        -- discriminate.
    + cbn [truthy_string]. CookieDraft.run.
      split; [reflexivity | split; [reflexivity | split]].
      * intros reason' [=].
      * intros _. exact Hsearch.
Qed.

End CookieDraftProperties.

Lemma cookie_fetchAPI_ends_session_by_body_witness :
  let server := fun _ : Request => Reply 403 (JObject [("auth_required", JBool true)]) in
  let w := CookieDraft.with_isLoggedIn true (CookieDraft.fresh_world "") in
  let w' := CookieDraft.world_after (CookieDraft.fetchAPI server "/convert" no_options) w in
  CookieDraft.isLoggedIn w' = false /\
  CookieDraft.error w' = JString "Authentication required. Please log in.".
Proof.
  intros server w w'.
  destruct (proj1 (cookie_fetchAPI_ends_session_by_body server "/convert" no_options w 403
                     (JObject [("auth_required", JBool true)]) eq_refl ltac:(lia))
              eq_refl (or_intror eq_refl)) as (Hout & _ & Herr).
  split; [exact Hout | exact Herr].
Defined.
